(** * Authentication core of the todo-tasks web app (backend/src)

    A shallow embedding of the backend's authentication path:
    - [AuthService.signup], [AuthService.login], [AuthService._generate_jwt_token]
      and [AuthService.verify_jwt_token] (services/auth_service.py);
    - [JWTMiddleware.dispatch] (middleware/jwt_middleware.py);
    - [validate_user_access] and the task handlers (routes/tasks.py);
    - the error mapping of the signup and login routes (routes/auth.py).

    The code calls two libraries, PyJWT 2.8 ([jwt.encode], [jwt.decode]) and
    bcrypt 4 ([hashpw], [checkpw]).  Their control flow (which check runs
    first, which exception is raised) is written out below; the primitives
    underneath (base64url, json, HMAC-SHA256, the bcrypt cipher) are kept
    abstract in a record [Codecs] together with the laws the proofs use. *)

From Stdlib Require Import ZArith String Ascii List Bool Lia.
From Stdlib Require Import DecimalString DecimalN.
From stdpp Require Import countable strings.

Import ListNotations.
(** stdpp makes [simpl] leave string append alone; the proofs below compute
    with it. *)
#[local] Arguments String.append : simpl nomatch.
Local Open Scope Z_scope.
Local Open Scope string_scope.

(* ------------------------------------------------------------------ *)
(** ** Python values *)

(** A JSON value as [json.loads] returns it (floats are not modelled;
    an array or an object nested inside a claim is [JOther], carrying its
    Python truthiness, i.e. whether it is non-empty). *)
Inductive jvalue :=
| JNull
| JBool (b : bool)
| JInt (n : Z)
| JStr (s : string)
| JOther (nonempty : bool).

(** A JSON object / Python dict, in insertion order. *)
Definition dict := list (string * jvalue).

Fixpoint dict_get (d : dict) (k : string) : option jvalue :=
  match d with
  | [] => None
  | (k', v) :: d' => if String.eqb k k' then Some v else dict_get d' k
  end.

(** [d.get(k)]: [None] when absent, which is the JSON null. *)
Definition py_get (d : dict) (k : string) : jvalue :=
  match dict_get d k with Some v => v | None => JNull end.

Definition py_in (k : string) (d : dict) : bool :=
  match dict_get d k with Some _ => true | None => false end.

(** Python truthiness ([bool(v)]). *)
Definition truthy (v : jvalue) : bool :=
  match v with
  | JNull => false
  | JBool b => b
  | JInt n => negb (Z.eqb n 0)
  | JStr s => negb (String.eqb s "")
  | JOther ne => ne
  end.

(** [a or b] *)
Definition py_or (a b : jvalue) : jvalue := if truthy a then a else b.

(** [v == s] for a Python string [s]. *)
Definition py_eq_str (v : jvalue) (s : string) : bool :=
  match v with JStr s' => String.eqb s' s | _ => false end.

(** Exceptions raised along the modelled paths: PyJWT's exception classes,
    [InvalidTokenError] itself (raised by [verify_jwt_token]), and the
    built-in [TypeError] and [ValueError]. *)
Inductive PyExc :=
| DecodeError
| InvalidAlgorithmError
| InvalidSignatureError
| InvalidKeyError
| ExpiredSignatureError
| ImmatureSignatureError
| InvalidIssuedAtError
| InvalidAudienceError
| InvalidTokenError
| TypeError
| IndexError
| ValueError (msg : string).

(** [isinstance(e, jwt.InvalidTokenError)]: every PyJWT class above but
    [InvalidKeyError], which derives from [PyJWTError] only. *)
Definition is_invalid_token_error (e : PyExc) : bool :=
  match e with
  | DecodeError | InvalidAlgorithmError | InvalidSignatureError
  | ExpiredSignatureError | ImmatureSignatureError | InvalidIssuedAtError
  | InvalidAudienceError | InvalidTokenError => true
  | InvalidKeyError | TypeError | IndexError | ValueError _ => false
  end.

(** A computation that returns a value or raises. *)
Inductive result (A : Type) :=
| Ok (a : A)
| Err (e : PyExc).
Arguments Ok {A} a.
Arguments Err {A} e.

Definition bind {A B} (m : result A) (k : A -> result B) : result B :=
  match m with Ok a => k a | Err e => Err e end.

Notation "x <- m ;; k" := (bind m (fun x => k))
  (at level 100, m at next level, right associativity).

(** [int(v)] on a JSON value: integers and booleans convert, a string is
    parsed as an optionally signed decimal (the whitespace and underscore
    forms Python also accepts are not modelled), null and containers raise
    [TypeError]. *)
Definition py_int (v : jvalue) : result Z :=
  match v with
  | JInt n => Ok n
  | JBool b => Ok (if b then 1 else 0)
  | JStr s =>
      match NilZero.int_of_string s with
      | Some i => Ok (Z.of_int i)
      | None => Err (ValueError "invalid literal for int()")
      end
  | JNull | JOther _ => Err TypeError
  end.

(* ------------------------------------------------------------------ *)
(** ** String helpers ([str.split], [str.rsplit], [str.startswith], [in]) *)

Fixpoint str_has (c : ascii) (s : string) : bool :=
  match s with
  | EmptyString => false
  | String x r => Ascii.eqb x c || str_has c r
  end.

(** [s.split(c, 1)] when it yields two parts. *)
Fixpoint str_split_once (c : ascii) (s : string) : option (string * string) :=
  match s with
  | EmptyString => None
  | String x r =>
      if Ascii.eqb x c then Some (EmptyString, r)
      else match str_split_once c r with
           | Some (a, b) => Some (String x a, b)
           | None => None
           end
  end.

(** [s.rsplit(c, 1)] when it yields two parts. *)
Fixpoint str_rsplit_once (c : ascii) (s : string) : option (string * string) :=
  match s with
  | EmptyString => None
  | String x r =>
      match str_rsplit_once c r with
      | Some (a, b) => Some (String x a, b)
      | None => if Ascii.eqb x c then Some (EmptyString, r) else None
      end
  end.

(** [s.split(c)] *)
Fixpoint str_split (c : ascii) (s : string) : list string :=
  match s with
  | EmptyString => [EmptyString]
  | String x r =>
      if Ascii.eqb x c then EmptyString :: str_split c r
      else match str_split c r with
           | a :: rest => String x a :: rest
           | [] => [String x EmptyString]
           end
  end.

(** [needle in hay] for strings. *)
Fixpoint str_contains (needle hay : string) : bool :=
  String.prefix needle hay ||
  match hay with
  | EmptyString => false
  | String _ r => str_contains needle r
  end.

Definition str_ends_with (suffix w : string) : bool :=
  (String.length suffix <=? String.length w)%nat &&
  String.eqb (substring (String.length w - String.length suffix)
                        (String.length suffix) w) suffix.

(* ------------------------------------------------------------------ *)
(** ** Primitives under PyJWT *)

(** [Bytes] is Python's [bytes]; [b64url_encode]/[b64url_decode] are
    [jwt.utils.base64url_encode]/[base64url_decode] ([None]: binascii
    error); [json_dumps]/[json_loads] are [json.dumps]/[json.loads]
    ([None]: not JSON or not a JSON object); [hmac_sha256 k m] is
    [hmac.new(k, m, sha256).digest()]; [bytes_eqb] is
    [hmac.compare_digest]; [is_pem_format] is [jwt.utils.is_pem_format]. *)
Record Codecs := {
  Bytes : Type;
  bytes_eqb : Bytes -> Bytes -> bool;
  b64url_encode : Bytes -> string;
  b64url_decode : string -> option Bytes;
  json_dumps : dict -> Bytes;
  json_loads : Bytes -> option dict;
  hmac_sha256 : string -> string -> Bytes;
  is_pem_format : string -> bool
}.

(** The laws of the real primitives that the proofs rely on. *)
Definition codecs_lawful (C : Codecs) : Prop :=
  (forall x y, bytes_eqb C x y = true <-> x = y) /\
  (forall b, b64url_decode C (b64url_encode C b) = Some b) /\
  (forall b, str_has "." (b64url_encode C b) = false) /\
  (forall b, str_has " " (b64url_encode C b) = false) /\
  (forall d, NoDup (map fst d) -> json_loads C (json_dumps C d) = Some d).

(** The cryptographic idealisation of HMAC: distinct (key, message) pairs
    have distinct tags. *)
Definition hmac_collision_free (C : Codecs) : Prop :=
  forall k1 m1 k2 m2,
    hmac_sha256 C k1 m1 = hmac_sha256 C k2 m2 -> k1 = k2 /\ m1 = m2.

(** [jwt.utils.is_ssh_key] *)
Definition ssh_key_formats : list string :=
  ["ssh-ed25519"; "ssh-rsa"; "ssh-dss"; "ecdsa-sha2-nistp256";
   "ecdsa-sha2-nistp384"; "ecdsa-sha2-nistp521"].

Definition is_ws (c : ascii) : bool :=
  existsb (Ascii.eqb c) [" "; "009"; "010"; "011"; "012"; "013"]%char.

Definition is_blank (c : ascii) : bool :=
  Ascii.eqb c " " || Ascii.eqb c "009".

Fixpoint take_nonws (s : string) : string * string :=
  match s with
  | EmptyString => (EmptyString, EmptyString)
  | String c r =>
      if is_ws c then (EmptyString, s)
      else let (w, rest) := take_nonws r in (String c w, rest)
  end.

Fixpoint skip_blank (s : string) : string :=
  match s with
  | String c r => if is_blank c then skip_blank r else s
  | EmptyString => EmptyString
  end.

(** [_SSH_PUBKEY_RC.match(key)] with [rb"\A(\S+)[ \t]+(\S+)"], and the
    key type ending in [_CERT_SUFFIX]. *)
Definition ssh_cert_pubkey (key : string) : bool :=
  let (w, rest) := take_nonws key in
  match w, rest with
  | String _ _, String c _ =>
      is_blank c &&
      match skip_blank rest with
      | String c' _ => negb (is_ws c')
      | EmptyString => false
      end &&
      str_ends_with "-cert-v01@openssh.com" w
  | _, _ => false
  end.

Definition is_ssh_key (key : string) : bool :=
  existsb (fun f => str_contains f key) ssh_key_formats || ssh_cert_pubkey key.

(* ------------------------------------------------------------------ *)
(** ** PyJWT 2.8 with [algorithms=["HS256"]] and default options *)

Section PyJWT.

Variable C : Codecs.

(** [HMACAlgorithm.prepare_key] after [force_bytes]. *)
Definition hmac_prepare_key (key : option string) : result string :=
  match key with
  | None => Err TypeError
  | Some k =>
      if is_pem_format C k || is_ssh_key k then Err InvalidKeyError else Ok k
  end.

(** The header [jwt.encode] writes, [{"typ": "JWT", "alg": "HS256"}],
    with the keys in the order [sort_keys=True] dumps them. *)
Definition jwt_header : dict := [("alg", JStr "HS256"); ("typ", JStr "JWT")].

(** [jwt.encode(payload, key, algorithm="HS256")] *)
Definition jwt_encode (payload : dict) (key : option string) : result string :=
  let header_segment := b64url_encode C (json_dumps C jwt_header) in
  let payload_segment := b64url_encode C (json_dumps C payload) in
  let signing_input := header_segment ++ "." ++ payload_segment in
  k <- hmac_prepare_key key ;;
  Ok (signing_input ++ "." ++ b64url_encode C (hmac_sha256 C k signing_input)).

(** [PyJWS._load]: payload bytes, signing input, header, signature. *)
Definition jws_load (token : string) : result (Bytes C * string * dict * Bytes C) :=
  match str_rsplit_once "." token with
  | None => Err DecodeError
  | Some (signing_input, crypto_segment) =>
    match str_split_once "." signing_input with
    | None => Err DecodeError
    | Some (header_segment, payload_segment) =>
      match b64url_decode C header_segment with
      | None => Err DecodeError
      | Some header_data =>
        match json_loads C header_data with
        | None => Err DecodeError
        | Some header =>
          match b64url_decode C payload_segment with
          | None => Err DecodeError
          | Some payload =>
            match b64url_decode C crypto_segment with
            | None => Err DecodeError
            | Some signature => Ok (payload, signing_input, header, signature)
            end
          end
        end
      end
    end
  end.

(** [PyJWS._verify_signature] with [algorithms=["HS256"]]. *)
Definition jws_verify_signature (signing_input : string) (header : dict)
    (signature : Bytes C) (key : option string) : result unit :=
  if py_eq_str (py_get header "alg") "HS256" then
    k <- hmac_prepare_key key ;;
    if bytes_eqb C signature (hmac_sha256 C k signing_input)
    then Ok tt else Err InvalidSignatureError
  else Err InvalidAlgorithmError.

(** [PyJWS.decode_complete] (no detached payload). *)
Definition jws_decode (token : string) (key : option string) : result (Bytes C) :=
  l <- jws_load token ;;
  match l with
  | (payload, signing_input, header, signature) =>
      match py_get header "b64" with
      | JBool false => Err DecodeError
      | _ => u <- jws_verify_signature signing_input header signature key ;;
             Ok payload
      end
  end.

(** [PyJWT._validate_claims] at instant [now] (whole seconds: an integer
    claim compares with a float [now] as with its floor), no audience,
    no issuer, leeway 0. *)
Definition validate_iat (payload : dict) (now : Z) : result unit :=
  if py_in "iat" payload then
    match py_int (py_get payload "iat") with
    | Ok iat => if Z.ltb now iat then Err ImmatureSignatureError else Ok tt
    | Err (ValueError _) => Err InvalidIssuedAtError
    | Err e => Err e
    end
  else Ok tt.

Definition validate_nbf (payload : dict) (now : Z) : result unit :=
  if py_in "nbf" payload then
    match py_int (py_get payload "nbf") with
    | Ok nbf => if Z.ltb now nbf then Err ImmatureSignatureError else Ok tt
    | Err (ValueError _) => Err DecodeError
    | Err e => Err e
    end
  else Ok tt.

Definition validate_exp (payload : dict) (now : Z) : result unit :=
  if py_in "exp" payload then
    match py_int (py_get payload "exp") with
    | Ok exp => if Z.leb exp now then Err ExpiredSignatureError else Ok tt
    | Err (ValueError _) => Err DecodeError
    | Err e => Err e
    end
  else Ok tt.

Definition validate_aud (payload : dict) : result unit :=
  if py_in "aud" payload && truthy (py_get payload "aud")
  then Err InvalidAudienceError else Ok tt.

Definition validate_claims (payload : dict) (now : Z) : result unit :=
  u1 <- validate_iat payload now ;;
  u2 <- validate_nbf payload now ;;
  u3 <- validate_exp payload now ;;
  validate_aud payload.

(** [jwt.decode(token, key, algorithms=["HS256"])] at instant [now]. *)
Definition jwt_decode (token : string) (key : option string) (now : Z) : result dict :=
  payload_bytes <- jws_decode token key ;;
  match json_loads C payload_bytes with
  | None => Err DecodeError
  | Some payload => u <- validate_claims payload now ;; Ok payload
  end.

End PyJWT.

(* ------------------------------------------------------------------ *)
(** ** The user record and the auth service (services/auth_service.py) *)

(** [models.User]; timestamps are whole seconds. *)
Record User := {
  id : string;
  email : string;
  password_hash : string;
  name : option string;
  created_at : Z;
  updated_at : Z
}.

(** [timedelta(days=7)] in seconds. *)
Definition TOKEN_TTL : Z := 7 * 24 * 60 * 60.

(** [int(dt.timestamp())] for a naive [datetime] [dt] holding UTC wall-clock
    time: Python reads a naive datetime as local time, so the result is
    the wall-clock value minus the host's UTC offset in force at that local
    wall time, [local_offset wall] (as Python resolves it, [fold=0]). The
    offset depends on the wall time: across a daylight-saving change two
    wall times 7 days apart map to timestamps 7 days plus or minus the
    shift apart. *)
Definition naive_timestamp (local_offset : Z -> Z) (wall : Z) : Z :=
  wall - local_offset wall.

(** The payload built by [_generate_jwt_token]. *)
Definition jwt_payload (user : User) (iat exp : Z) : dict :=
  [("user_id", JStr user.(id)); ("email", JStr user.(email));
   ("iat", JInt iat); ("exp", JInt exp); ("sub", JStr user.(id))].

Section AuthService.

Variable C : Codecs.

(** [AuthService._generate_jwt_token(user)] at UTC wall-clock [utcnow]
    ([datetime.utcnow()]): the token and the instant that the returned
    ISO string ([expires_at.isoformat() + "Z"]) denotes. *)
Definition generate_jwt_token (jwt_secret : string) (user : User)
    (utcnow : Z) (local_offset : Z -> Z) : result (string * Z) :=
  let issued_at := utcnow in
  let expires_at := issued_at + TOKEN_TTL in
  let payload := jwt_payload user (naive_timestamp local_offset issued_at)
                                  (naive_timestamp local_offset expires_at) in
  token <- jwt_encode C payload (Some jwt_secret) ;;
  Ok (token, expires_at).

(** [AuthService.verify_jwt_token(token)] at instant [now]. *)
Definition verify_jwt_token (jwt_secret : string) (token : string) (now : Z)
    : result dict :=
  match jwt_decode C token (Some jwt_secret) now with
  | Ok payload => Ok payload
  | Err ExpiredSignatureError => Err ExpiredSignatureError
  | Err e => if is_invalid_token_error e then Err InvalidTokenError else Err e
  end.

End AuthService.

(** *** bcrypt 4 *)

(** Rust's [str::parse::<u32>()]: one optional leading ['+'], then at
    least one decimal digit, the value below [2^32]. *)
Definition parse_u32 (s : string) : option Z :=
  let digits := match s with String "+" r => r | _ => s end in
  match digits with
  | EmptyString => None
  | _ =>
      match NilZero.uint_of_string digits with
      | Some c => if Z.ltb (Z.of_uint c) (2 ^ 32) then Some (Z.of_uint c) else None
      | None => None
      end
  end.

(** The salt parsing of [bcrypt.hashpw(password, salt)]: [salt] split on
    ['$'] with the empty parts dropped must be [version; cost; rest] with a
    known version, a cost that parses as a [u32] and at least 22 salt
    characters. *)
Definition bcrypt_parse_salt (salt : string) : option (string * Z * string) :=
  match filter (fun s => negb (String.eqb s "")) (str_split "$" salt) with
  | [version; cost; rest] =>
      if existsb (String.eqb version) ["2y"; "2b"; "2a"; "2x"] then
        match parse_u32 cost with
        | Some c =>
            if (22 <=? String.length rest)%nat
            then Some (version, c, substring 0 22 rest)
            else None
        | None => None
        end
      else None
  | _ => None
  end.

Section Bcrypt.

(** The bcrypt cipher on (password, version, cost, 22 salt characters),
    returning the formatted digest, or [None] when the salt characters do
    not decode or the cost is out of range. *)
Variable bcrypt_core : string -> string -> Z -> string -> option string.

Definition bcrypt_hashpw (password salt : string) : result string :=
  match bcrypt_parse_salt salt with
  | None => Err (ValueError "Invalid salt")
  | Some (version, cost, s) =>
      match bcrypt_core password version cost s with
      | None => Err (ValueError "Invalid salt")
      | Some h => Ok h
      end
  end.

(** [bcrypt.checkpw(password, hashed_password)] *)
Definition bcrypt_checkpw (password hashed_password : string) : result bool :=
  h <- bcrypt_hashpw password hashed_password ;;
  Ok (String.eqb h hashed_password).

(** *** Signup and login *)

(** Store effects, in the order the service performs them. *)
Inductive Effect :=
| QueryUserByEmail (e : string)
| HashPassword
| InsertUser (u : User)
| Commit.

(** [select(User).where(User.email == email)).first()] *)
Definition find_by_email (users : list User) (e : string) : option User :=
  find (fun u => String.eqb u.(email) e) users.

Definition duplicate_email_msg : string :=
  "This email is already registered. Please log in instead".

Definition invalid_credentials_msg : string := "Invalid email or password".

(** [AuthService.signup(email, password, name)]; [salt] is what
    [bcrypt.gensalt()] returned, [new_id] the fresh uuid the model's
    default factory draws, [utcnow] the creation time. Returns the
    outcome, the user table after the call, and the effects performed. *)
Definition signup (users : list User) (e password : string) (n : option string)
    (salt new_id : string) (utcnow : Z) : result User * list User * list Effect :=
  match find_by_email users e with
  | Some _ => (Err (ValueError duplicate_email_msg), users, [QueryUserByEmail e])
  | None =>
      match bcrypt_hashpw password salt with
      | Err ex => (Err ex, users, [QueryUserByEmail e; HashPassword])
      | Ok h =>
          let u := {| id := new_id; email := e; password_hash := h; name := n;
                      created_at := utcnow; updated_at := utcnow |} in
          (Ok u, (users ++ [u])%list, [QueryUserByEmail e; HashPassword; InsertUser u; Commit])
      end
  end.

(** [AuthService.login(email, password)] *)
Definition login (C : Codecs) (jwt_secret : string) (users : list User)
    (e password : string) (utcnow : Z) (local_offset : Z -> Z) : result (User * string * Z) :=
  match find_by_email users e with
  | None => Err (ValueError invalid_credentials_msg)
  | Some user =>
      ok <- bcrypt_checkpw password user.(password_hash) ;;
      if ok then
        tk <- generate_jwt_token C jwt_secret user utcnow local_offset ;;
        Ok (user, fst tk, snd tk)
      else Err (ValueError invalid_credentials_msg)
  end.

End Bcrypt.

(** *** Error mapping of the routes (routes/auth.py): status and detail. *)

Definition signup_route_response {A} (r : result A) : Z * string :=
  match r with
  | Ok _ => (201, "Account created successfully. Please log in.")
  | Err (ValueError m) => (409, m)
  | Err _ => (500, "An error occurred during signup")
  end.

Definition login_route_response {A} (r : result A) : Z * string :=
  match r with
  | Ok _ => (200, "")
  | Err (ValueError _) => (401, invalid_credentials_msg)
  | Err _ => (500, "An error occurred during login")
  end.

(* ------------------------------------------------------------------ *)
(** ** The JWT middleware (middleware/jwt_middleware.py) *)

(** The attributes [dispatch] sets on [request.state]. *)
Record ReqState := {
  st_user_id : option jvalue;
  st_email : option jvalue
}.

(** The parts of a Starlette request the middleware reads. *)
Record Request := {
  method : string;
  path : string;
  authorization : option string;   (* request.headers.get("Authorization") *)
  state : ReqState
}.

(** What [dispatch] does with the request: hand it (possibly with the
    state updated) to [call_next], raise [HTTPException(status, detail)],
    or fail with an uncaught exception. *)
Inductive Dispatch :=
| CallNext (r : Request)
| HttpRaise (status : Z) (detail : string)
| Uncaught (e : PyExc).

Definition str_in (s : string) (l : list string) : bool := existsb (String.eqb s) l.

Definition public_auth_paths : list string := ["/api/auth/signup"; "/api/auth/login"].

Definition health_docs_paths : list string :=
  ["/"; "/health"; "/docs"; "/redoc"; "/openapi.json"; "/favicon.ico"].

(** The three early returns of [dispatch]. *)
Definition bypassed (request : Request) : bool :=
  String.eqb request.(method) "OPTIONS" ||
  str_in request.(path) public_auth_paths ||
  str_in request.(path) health_docs_paths.

(** What the body of the [try] block raises. *)
Inductive Raised :=
| RJwt (e : PyExc)
| RHttp (status : Z) (detail : string).

(** [request.state.user_id = user_id; request.state.email = email] *)
Definition authenticated (request : Request) (user_id em : jvalue) : Request :=
  {| method := request.(method); path := request.(path);
     authorization := request.(authorization);
     state := {| st_user_id := Some user_id; st_email := Some em |} |}.

Section Middleware.

Variable C : Codecs.

(** The [try] block: [jwt.decode], then [user_id] and [email] from the
    payload; [inl] when the block completes. *)
Definition dispatch_try (secret : option string) (token : string) (now : Z)
    : (jvalue * jvalue) + Raised :=
  match jwt_decode C token secret now with
  | Err e => inr (RJwt e)
  | Ok payload =>
      let user_id := py_or (py_get payload "user_id") (py_get payload "sub") in
      let em := py_get payload "email" in
      if negb (truthy user_id)
      then inr (RHttp 401 "Invalid token: missing user identifier")
      else inl (user_id, em)
  end.

(** The three [except] clauses, tried in order; [except Exception] also
    catches the [HTTPException] raised inside the [try] block. *)
Definition dispatch_except (r : Raised) : Z * string :=
  match r with
  | RJwt ExpiredSignatureError => (401, "Token expired. Please log in again")
  | RJwt e =>
      if is_invalid_token_error e then (401, "Invalid authentication token")
      else (401, "Authentication failed")
  | RHttp _ _ => (401, "Authentication failed")
  end.

(** [JWTMiddleware.dispatch(request, call_next)] with
    [os.getenv("BETTER_AUTH_SECRET") = secret], at instant [now]. *)
Definition dispatch (secret : option string) (now : Z) (request : Request) : Dispatch :=
  if String.eqb request.(method) "OPTIONS" then CallNext request
  else if str_in request.(path) public_auth_paths then CallNext request
  else if str_in request.(path) health_docs_paths then CallNext request
  else
    match request.(authorization) with
    | None => HttpRaise 401 "Authentication required"
    | Some auth_header =>
        if String.eqb auth_header "" then HttpRaise 401 "Authentication required"
        else if negb (String.prefix "Bearer " auth_header) then
          HttpRaise 401 "Invalid authentication token format. Expected 'Bearer <token>'"
        else
          match nth_error (str_split " " auth_header) 1 with
          | None => Uncaught IndexError
          | Some token =>
              match dispatch_try secret token now with
              | inl (user_id, em) => CallNext (authenticated request user_id em)
              | inr r => let (st, detail) := dispatch_except r in HttpRaise st detail
              end
          end
    end.

End Middleware.

(* ------------------------------------------------------------------ *)
(** ** Task routes (routes/tasks.py) *)

(** [models.Task], without its [created_at] and [updated_at] columns:
    [updated_at] is rewritten ([onupdate=datetime.utcnow]) by every UPDATE
    the session flushes, and no statement below is about it. *)
Record Task := {
  task_id : Z;
  task_user_id : string;
  title : string;
  description : option string;
  completed : bool
}.

(** The task endpoints, with their validated arguments other than
    [user_id]. *)
Inductive TaskRequest :=
| CreateTask (t : string) (d : option string)
| ListTasks
| GetTask (tid : Z)
| UpdateTask (tid : Z) (t : option string) (d : option string)
| DeleteTask (tid : Z)
| ToggleTaskComplete (tid : Z).

(** Session operations on the task table. *)
Inductive DbOp := DbSelect | DbAdd | DbDelete | DbCommit.

Inductive RouteResult :=
| Respond (status : Z) (tasks : list Task)
| HttpError (status : Z) (detail : string).

Definition access_denied_msg : string :=
  "Access denied. You can only access your own tasks.".

(** [validate_user_access(request, user_id)]: [Some (status, detail)] when
    it raises. *)
Definition validate_user_access (authenticated_user_id : jvalue) (user_id : string)
    : option (Z * string) :=
  if negb (py_eq_str authenticated_user_id user_id)
  then Some (403, access_denied_msg) else None.

Definition find_task (db : list Task) (tid : Z) (user_id : string) : option Task :=
  find (fun t => Z.eqb t.(task_id) tid && String.eqb t.(task_user_id) user_id) db.

Definition put_task (db : list Task) (t : Task) : list Task :=
  map (fun t' => if Z.eqb t'.(task_id) t.(task_id) then t else t') db.

Definition with_fields (t : Task) (ti : string) (d : option string) (c : bool) : Task :=
  {| task_id := t.(task_id); task_user_id := t.(task_user_id);
     title := ti; description := d; completed := c |}.

(** The handler of [req] on [/api/{user_id}/tasks...] with
    [request.state.user_id = authenticated_user_id]; [user_ids] are the ids
    of the [users] table and [next_id] is the id the database assigns to a
    new row. [tasks.user_id] is a foreign key to [users.id] (PostgreSQL), so
    committing a new row whose [user_id] is not a user's id fails with an
    [IntegrityError] that nothing catches: the transaction is rolled back
    and the client gets 500. Listing order ([created_at desc]) is not
    modelled. *)
Definition handle_task_request (user_ids : list string) (authenticated_user_id : jvalue)
    (user_id : string) (req : TaskRequest) (db : list Task) (next_id : Z)
    : RouteResult * list Task * list DbOp :=
  match validate_user_access authenticated_user_id user_id with
  | Some (st, detail) => (HttpError st detail, db, [])
  | None =>
    match req with
    | CreateTask ti d =>
        let t := {| task_id := next_id; task_user_id := user_id; title := ti;
                    description := d; completed := false |} in
        if str_in user_id user_ids
        then (Respond 201 [t], (db ++ [t])%list, [DbAdd; DbCommit])
        else (HttpError 500 "Internal Server Error", db, [DbAdd; DbCommit])
    | ListTasks =>
        (Respond 200 (filter (fun t => String.eqb t.(task_user_id) user_id) db),
         db, [DbSelect])
    | GetTask tid =>
        match find_task db tid user_id with
        | None => (HttpError 404 "Task not found", db, [DbSelect])
        | Some t => (Respond 200 [t], db, [DbSelect])
        end
    | UpdateTask tid ti d =>
        match find_task db tid user_id with
        | None => (HttpError 404 "Task not found", db, [DbSelect])
        | Some t =>
            let t' := with_fields t (match ti with Some x => x | None => t.(title) end)
                        (match d with Some x => Some x | None => t.(description) end)
                        t.(completed) in
            (Respond 200 [t'], put_task db t', [DbSelect; DbAdd; DbCommit])
        end
    | DeleteTask tid =>
        match find_task db tid user_id with
        | None => (HttpError 404 "Task not found", db, [DbSelect])
        | Some t =>
            (Respond 204 [], filter (fun t' => negb (Z.eqb t'.(task_id) t.(task_id))) db,
             [DbSelect; DbDelete; DbCommit])
        end
    | ToggleTaskComplete tid =>
        match find_task db tid user_id with
        | None => (HttpError 404 "Task not found", db, [DbSelect])
        | Some t =>
            let t' := with_fields t t.(title) t.(description) (negb t.(completed)) in
            (Respond 200 [t'], put_task db t', [DbSelect; DbAdd; DbCommit])
        end
    end
  end.

(* ------------------------------------------------------------------ *)
(** ** A concrete codec instance

    Lawful primitives to run the model on concrete tokens: bytes are
    natural numbers, a base64url segment is the decimal numeral of the
    bytes, JSON and the MAC are stdpp's injective [encode]. *)

#[global] Instance jvalue_eq_dec : EqDecision jvalue.
Proof. solve_decision. Defined.

Definition jvalue_to_sum (v : jvalue) : unit + (bool + (Z + (string + bool))) :=
  match v with
  | JNull => inl tt
  | JBool b => inr (inl b)
  | JInt n => inr (inr (inl n))
  | JStr s => inr (inr (inr (inl s)))
  | JOther ne => inr (inr (inr (inr ne)))
  end.

Definition jvalue_of_sum (x : unit + (bool + (Z + (string + bool)))) : jvalue :=
  match x with
  | inl _ => JNull
  | inr (inl b) => JBool b
  | inr (inr (inl n)) => JInt n
  | inr (inr (inr (inl s))) => JStr s
  | inr (inr (inr (inr ne))) => JOther ne
  end.

#[global] Program Instance jvalue_countable : Countable jvalue :=
  inj_countable' jvalue_to_sum jvalue_of_sum _.
Next Obligation. intros []; reflexivity. Qed.

Definition toy_codecs : Codecs := {|
  Bytes := N;
  bytes_eqb := N.eqb;
  b64url_encode := fun n => NilEmpty.string_of_uint (N.to_uint n);
  b64url_decode := fun s => option_map N.of_uint (NilEmpty.uint_of_string s);
  json_dumps := fun d => Npos (encode d);
  json_loads := fun n => match n with N0 => None | Npos p => decode p end;
  hmac_sha256 := fun k m => Npos (encode (k, m));
  is_pem_format := str_contains "-----BEGIN "
|}.

Definition toy_user : User := {|
  id := "u1"; email := "a@example.com";
  password_hash := "$2b$12$abcdefghijklmnopqrstuvwxyz0123456789ABCDEFGHIJKLMNOPQ";
  name := None; created_at := 1000; updated_at := 1000 |}.

(** The claims of a token issued to [toy_user] at [1000] on a UTC host. *)
Definition toy_payload : dict := jwt_payload toy_user 1000 605800.

Definition toy_token : string :=
  match jwt_encode toy_codecs toy_payload (Some "secret-key") with
  | Ok t => t
  | Err _ => EmptyString
  end.

(** A host whose UTC offset moves from 0 to one hour at wall time 300000,
    inside the week of a token issued at 1000. *)
Definition toy_dst_offset (wall : Z) : Z := if Z.ltb wall 300000 then 0 else 3600.

(** A correctly signed token whose [iat] claim is JSON null. *)
Definition toy_null_iat_token : string :=
  match jwt_encode toy_codecs [("iat", JNull); ("sub", JStr "u1")] (Some "secret-key") with
  | Ok t => t
  | Err _ => EmptyString
  end.

(** A stand-in for the bcrypt cipher (not a hash function), to run
    [bcrypt_checkpw] on concrete digests. *)
Definition toy_bcrypt_core (password version : string) (cost : Z) (salt : string)
    : option string :=
  Some ("$" ++ version ++ "$" ++ NilZero.string_of_int (Z.to_int cost) ++ "$" ++
        salt ++ password).


(* ------------------------------------------------------------------ *)
(** ** Request bodies of the task routes (models.py)

    Strings are ASCII here; [str.strip()] removes the ASCII characters
    Python's [str.isspace] accepts. A body Pydantic rejects makes FastAPI
    answer 422 before the handler runs. *)

Definition py_isspace (c : ascii) : bool :=
  existsb (Ascii.eqb c)
    ["009"; "010"; "011"; "012"; "013"; "028"; "029"; "030"; "031"; " "]%char.

Fixpoint py_lstrip (s : string) : string :=
  match s with
  | EmptyString => EmptyString
  | String c r => if py_isspace c then py_lstrip r else s
  end.

Fixpoint py_rstrip (s : string) : string :=
  match s with
  | EmptyString => EmptyString
  | String c r =>
      let r' := py_rstrip r in
      if py_isspace c && String.eqb r' "" then EmptyString else String c r'
  end.

(** [s.strip()] *)
Definition py_strip (s : string) : string := py_rstrip (py_lstrip s).

(** [TaskCreate.title]: [Field(..., min_length=1, max_length=200)], then the
    [title_not_empty] validator; [None] is a validation error. *)
Definition validate_create_title (v : string) : option string :=
  if (1 <=? String.length v)%nat && (String.length v <=? 200)%nat then
    if String.eqb v "" || String.eqb (py_strip v) "" then None
    else Some (py_strip v)
  else None.

(** [TaskUpdate.title]: [Field(None, min_length=1, max_length=200)], then
    [title_valid_if_present]. *)
Definition validate_update_title (v : option string) : option (option string) :=
  match v with
  | None => Some None
  | Some t =>
      if (1 <=? String.length t)%nat && (String.length t <=? 200)%nat then
        if String.eqb t "" || String.eqb (py_strip t) "" then None
        else Some (Some (py_strip t))
      else None
  end.

(** [description]: [Field(None, max_length=1000)], then [description_clean]
    ([v.strip() if v else None]), the same in both bodies. *)
Definition validate_description (v : option string) : option (option string) :=
  match v with
  | None => Some None
  | Some d =>
      if (String.length d <=? 1000)%nat
      then Some (if String.eqb d "" then None else Some (py_strip d))
      else None
  end.

Definition validation_failed (db : list Task) : RouteResult * list Task * list DbOp :=
  (HttpError 422 "Unprocessable Entity", db, []).

(** [POST /api/{user_id}/tasks] with body [{title, description}]. *)
Definition create_task_route (user_ids : list string) (authenticated_user_id : jvalue) (user_id title : string)
    (description : option string) (db : list Task) (next_id : Z)
    : RouteResult * list Task * list DbOp :=
  match validate_create_title title, validate_description description with
  | Some t, Some d => handle_task_request user_ids authenticated_user_id user_id (CreateTask t d) db next_id
  | _, _ => validation_failed db
  end.

Definition is_some {A} (o : option A) : bool :=
  match o with Some _ => true | None => false end.

(** Whether a [TaskCreate] body passes validation. *)
Definition create_body_valid (title : string) (description : option string) : bool :=
  is_some (validate_create_title title) && is_some (validate_description description).

(** Whether a [TaskUpdate] body passes validation. *)
Definition update_body_valid (title description : option string) : bool :=
  is_some (validate_update_title title) && is_some (validate_description description).

(** [PUT /api/{user_id}/tasks/{task_id}] with body [{title?, description?}]. *)
Definition update_task_route (user_ids : list string) (authenticated_user_id : jvalue) (user_id : string)
    (tid : Z) (title description : option string) (db : list Task) (next_id : Z)
    : RouteResult * list Task * list DbOp :=
  match validate_update_title title, validate_description description with
  | Some t, Some d =>
      handle_task_request user_ids authenticated_user_id user_id (UpdateTask tid t d) db next_id
  | _, _ => validation_failed db
  end.

(* ------------------------------------------------------------------ *)
(** ** [GET /api/auth/verify] (routes/auth.py) *)

(** [UserResponse]: the user's fields without [password_hash]. *)
Record UserResponse := {
  ur_id : string;
  ur_email : string;
  ur_name : option string;
  ur_created_at : Z;
  ur_updated_at : Z
}.

Definition user_response (u : User) : UserResponse :=
  {| ur_id := u.(id); ur_email := u.(email); ur_name := u.(name);
     ur_created_at := u.(created_at); ur_updated_at := u.(updated_at) |}.

(** A [VerifyResponse(valid=True, user=..., expires_at=...)], or the
    [HTTPException] the route raises. *)
Inductive VerifyResult :=
| VerifyOk (user : UserResponse) (expires_at : string)
| VerifyHttpError (status : Z) (detail : string).

(** [AuthService.get_user_by_id(user_id)]:
    [select(User).where(User.id == user_id)).first()] on a string id. *)
Definition get_user_by_id (users : list User) (user_id : string) : option User :=
  find (fun u => String.eqb u.(id) user_id) users.

Section VerifyRoute.

(** What the database does when [User.id] is compared with a value that is
    not a string (it depends on the engine). *)
Variable lookup_non_string : jvalue -> result (option User).

(** [verify(request, session)], run after the middleware. The middleware
    never sets [request.state.token_expires_at], so
    [getattr(request.state, "token_expires_at", None) or ""] is [""]. The
    text of the exception that the 500 detail appends is not modelled. *)
Definition verify_route (users : list User) (request : Request) : VerifyResult :=
  let user_id := match request.(state).(st_user_id) with Some v => v | None => JNull end in
  if negb (truthy user_id) then VerifyHttpError 401 "Authentication required"
  else
    match match user_id with
          | JStr s => Ok (get_user_by_id users s)
          | v => lookup_non_string v
          end with
    | Err _ => VerifyHttpError 500 "An error occurred during verification"
    | Ok None => VerifyHttpError 401 "User not found"
    | Ok (Some u) => VerifyOk (user_response u) ""
    end.

End VerifyRoute.

(* ------------------------------------------------------------------ *)
(** ** Lemmas: splitting a compact token *)

Lemma split_once_app (c : ascii) (a b : string) :
  str_has c a = false -> str_split_once c (a ++ String c b) = Some (a, b).
Proof.
  induction a as [|x a IH]; simpl; intros H.
  - rewrite Ascii.eqb_refl. reflexivity.
  - apply orb_false_iff in H as [Hx Ha]. rewrite Hx, IH by exact Ha. reflexivity.
Qed.

Lemma rsplit_once_none (c : ascii) (b : string) :
  str_has c b = false -> str_rsplit_once c b = None.
Proof.
  induction b as [|x b IH]; simpl; intros H; [reflexivity|].
  apply orb_false_iff in H as [Hx Hb]. rewrite IH by exact Hb. rewrite Hx. reflexivity.
Qed.

Lemma rsplit_once_app (c : ascii) (a b : string) :
  str_has c b = false -> str_rsplit_once c (a ++ String c b) = Some (a, b).
Proof.
  intros H. induction a as [|x a IH]; simpl.
  - rewrite rsplit_once_none by exact H. rewrite Ascii.eqb_refl. reflexivity.
  - rewrite IH. reflexivity.
Qed.

Lemma str_has_app (c : ascii) (a b : string) :
  str_has c (a ++ b) = str_has c a || str_has c b.
Proof.
  induction a as [|x a IH]; simpl; [reflexivity|]. rewrite IH, orb_assoc. reflexivity.
Qed.

Lemma str_append_assoc (a b c : string) : a ++ (b ++ c) = (a ++ b) ++ c.
Proof. induction a as [|x a IH]; simpl; [reflexivity|]. rewrite IH. reflexivity. Qed.

Lemma str_cons_app (c : ascii) (a b : string) : String c a ++ b = String c (a ++ b).
Proof. reflexivity. Qed.

Lemma append_cancel_l (a b1 b2 : string) : a ++ b1 = a ++ b2 -> b1 = b2.
Proof.
  induction a as [|x a IH]; simpl; intros H; [exact H|]. injection H. exact IH.
Qed.

Lemma str_split_nonempty (c : ascii) (s : string) : str_split c s <> [].
Proof.
  destruct s as [|x r]; cbn; [discriminate|].
  destruct (Ascii.eqb x c); [discriminate|]. destruct (str_split c r); discriminate.
Qed.

Lemma prefix_app (p s : string) : String.prefix p s = true -> exists r, s = p ++ r.
Proof.
  revert s. induction p as [|x p IH]; intros s H.
  - exists s. reflexivity.
  - destruct s as [|y s]; cbn in H; [discriminate|].
    destruct (ascii_dec x y) as [->|]; [|discriminate].
    destruct (IH s H) as [r ->]. exists r. reflexivity.
Qed.

(** [auth_header.split(" ")[1]] exists once the header starts with
    ["Bearer "]. *)
Lemma bearer_split_index (h : string) :
  String.prefix "Bearer " h = true ->
  exists token, nth_error (str_split " " h) 1 = Some token.
Proof.
  intros H. destruct (prefix_app _ _ H) as [r ->]. simpl.
  destruct (str_split " " r) as [|t rest] eqn:E.
  - exfalso. exact (str_split_nonempty _ _ E).
  - exists t. reflexivity.
Qed.

(* ------------------------------------------------------------------ *)
(** ** Lemmas: decoding what [jwt.encode] produced *)

Section Decoding.

Variable C : Codecs.
Hypothesis HC : codecs_lawful C.

Lemma bytes_eqb_refl (x : Bytes C) : bytes_eqb C x x = true.
Proof. destruct HC as [He _]. apply He. reflexivity. Qed.

Lemma bytes_eqb_false (x y : Bytes C) : x <> y -> bytes_eqb C x y = false.
Proof.
  destruct HC as [He _]. intros Hne.
  destruct (bytes_eqb C x y) eqn:E; [|reflexivity]. apply He in E. contradiction.
Qed.

Lemma jwt_header_nodup : NoDup (map fst jwt_header).
Proof.
  apply (bool_decide_unpack _). vm_compute. reflexivity.
Qed.

(** The segments of a token built from three encoded segments, whatever the
    middle one is. *)
Lemma jws_load_segments (hb : Bytes C) (p : string) (sb : Bytes C) :
  jws_load C (b64url_encode C hb ++ String "." (p ++ String "." (b64url_encode C sb))) =
  match b64url_decode C p with
  | None => match json_loads C hb with None => Err DecodeError | Some _ => Err DecodeError end
  | Some pb =>
      match json_loads C hb with
      | None => Err DecodeError
      | Some header => Ok (pb, b64url_encode C hb ++ String "." p, header, sb)
      end
  end.
Proof.
  destruct HC as (_ & Hb64 & Hdot & _ & _).
  unfold jws_load.
  replace (b64url_encode C hb ++ String "." (p ++ String "." (b64url_encode C sb)))
    with ((b64url_encode C hb ++ String "." p) ++ String "." (b64url_encode C sb)).
  2:{ rewrite <- !str_append_assoc. reflexivity. }
  rewrite rsplit_once_app by apply Hdot.
  rewrite split_once_app by apply Hdot.
  rewrite Hb64.
  destruct (json_loads C hb); destruct (b64url_decode C p); rewrite ?Hb64; reflexivity.
Qed.

(** [jwt.decode] of a token [jwt.encode] built with key [k], under a
    verifying key [key]. *)
Lemma jwt_decode_encoded (payload : dict) (k : string) (tok : string)
    (key : option string) (now : Z) :
  NoDup (map fst payload) ->
  jwt_encode C payload (Some k) = Ok tok ->
  jwt_decode C tok key now =
  (k' <- hmac_prepare_key C key ;;
   let si := b64url_encode C (json_dumps C jwt_header) ++ "." ++
             b64url_encode C (json_dumps C payload) in
   if bytes_eqb C (hmac_sha256 C k si) (hmac_sha256 C k' si)
   then (u <- validate_claims payload now ;; Ok payload)
   else Err InvalidSignatureError).
Proof.
  intros Hnd Henc.
  pose proof HC as (_ & Hb64 & _ & _ & Hjson).
  unfold jwt_encode in Henc. destruct (hmac_prepare_key C (Some k)) as [k0|e] eqn:Hk;
    cbn in Henc; [|discriminate].
  assert (k0 = k) as ->.
  { cbn in Hk. destruct (is_pem_format C k || is_ssh_key k); congruence. }
  injection Henc as <-.
  unfold jwt_decode, jws_decode.
  rewrite <- !str_append_assoc, str_cons_app.
  rewrite jws_load_segments, Hb64, Hjson by apply jwt_header_nodup.
  cbn [bind]. cbn -[hmac_prepare_key bytes_eqb hmac_sha256 b64url_encode json_dumps].
  destruct (hmac_prepare_key C key) as [k'|e]; cbn [bind]; [|reflexivity].
  destruct (bytes_eqb C _ _); cbn [bind]; [|reflexivity].
  rewrite Hjson by exact Hnd. reflexivity.
Qed.

End Decoding.

(* ------------------------------------------------------------------ *)
(** ** Lemmas: the concrete codec instance is lawful *)

Lemma digits_no_char (c : ascii) (u : Decimal.uint) :
  c <> "0"%char -> c <> "1"%char -> c <> "2"%char -> c <> "3"%char ->
  c <> "4"%char -> c <> "5"%char -> c <> "6"%char -> c <> "7"%char ->
  c <> "8"%char -> c <> "9"%char ->
  str_has c (NilEmpty.string_of_uint u) = false.
Proof.
  intros H0 H1 H2 H3 H4 H5 H6 H7 H8 H9.
  induction u; cbn [NilEmpty.string_of_uint str_has]; rewrite ?IHu, ?orb_false_r;
    try reflexivity; apply Ascii.eqb_neq; congruence.
Qed.

Lemma toy_codecs_lawful : codecs_lawful toy_codecs.
Proof.
  repeat split.
  - apply N.eqb_eq.
  - intros ->. apply N.eqb_refl.
  - intros b. cbn. rewrite NilEmpty.usu. cbn. rewrite DecimalN.Unsigned.of_to. reflexivity.
  - intros b. apply digits_no_char; discriminate.
  - intros b. apply digits_no_char; discriminate.
  - intros d _. cbn. apply decode_encode.
Qed.

Lemma toy_hmac_collision_free : hmac_collision_free toy_codecs.
Proof.
  intros k1 m1 k2 m2 H. cbn in H. injection H as H.
  apply (inj encode) in H. injection H as -> ->. split; reflexivity.
Qed.

(* ------------------------------------------------------------------ *)
(** ** Lemmas: the claims of an issued token *)

Lemma jwt_payload_nodup (user : User) (iat exp : Z) :
  NoDup (map fst (jwt_payload user iat exp)).
Proof. apply (bool_decide_unpack _). vm_compute. reflexivity. Qed.

Lemma validate_claims_issued (user : User) (iat exp now : Z) :
  validate_claims (jwt_payload user iat exp) now =
  if Z.ltb now iat then Err ImmatureSignatureError
  else if Z.leb exp now then Err ExpiredSignatureError
  else Ok tt.
Proof.
  unfold validate_claims, validate_iat, validate_nbf, validate_exp, validate_aud.
  simpl. destruct (Z.ltb now iat); simpl; [reflexivity|].
  destruct (Z.leb exp now); reflexivity.
Qed.

Lemma generate_jwt_token_ok (C : Codecs) (jwt_secret : string) (user : User)
    (utcnow : Z) (local_offset : Z -> Z) (token : string) (expires_at : Z) :
  generate_jwt_token C jwt_secret user utcnow local_offset = Ok (token, expires_at) ->
  expires_at = utcnow + TOKEN_TTL /\
  jwt_encode C (jwt_payload user (naive_timestamp local_offset utcnow)
                  (naive_timestamp local_offset (utcnow + TOKEN_TTL)))
             (Some jwt_secret) = Ok token.
Proof.
  unfold generate_jwt_token. intros H.
  destruct (jwt_encode _ _ _) as [t|e]; cbn in H; [|discriminate].
  injection H as -> <-. split; reflexivity.
Qed.

(** A token freshly issued to [user] decodes, under the issuing secret, to
    its payload when the instant lies in [[iat, exp)]. *)
Lemma verify_issued_in_window (C : Codecs) (jwt_secret : string) (user : User)
    (utcnow : Z) (local_offset : Z -> Z) (now : Z) (token : string) (expires_at : Z) :
  codecs_lawful C ->
  generate_jwt_token C jwt_secret user utcnow local_offset = Ok (token, expires_at) ->
  verify_jwt_token C jwt_secret token now =
  let iat := naive_timestamp local_offset utcnow in
  let exp := naive_timestamp local_offset (utcnow + TOKEN_TTL) in
  if Z.ltb now iat then Err InvalidTokenError
  else if Z.leb exp now then Err ExpiredSignatureError
  else Ok (jwt_payload user iat exp).
Proof.
  intros HC Hgen. apply generate_jwt_token_ok in Hgen as [_ Henc].
  unfold verify_jwt_token.
  rewrite (jwt_decode_encoded C HC _ _ _ _ _ (jwt_payload_nodup _ _ _) Henc).
  pose proof Henc as Hk. unfold jwt_encode in Hk.
  destruct (hmac_prepare_key C (Some jwt_secret)) as [k|e] eqn:Hprep;
    cbn in Hk; [|discriminate].
  assert (k = jwt_secret) as ->.
  { cbn in Hprep. destruct (_ || _); congruence. }
  cbn [bind]. rewrite bytes_eqb_refl by exact HC. cbn [bind].
  rewrite validate_claims_issued. cbv zeta.
  destruct (Z.ltb now _); [reflexivity|]. destruct (Z.leb _ now); reflexivity.
Qed.

(* ------------------------------------------------------------------ *)
(** ** C1: verifying a freshly issued token *)

(** C1 (counterexample).  A token issued at [utcnow = 1000] on a UTC host
    expires at [605800]; verified at [999], strictly before that expiry, it
    is rejected ([iat] lies in the future), not accepted. *)
Lemma issued_token_rejected_before_iat :
  match generate_jwt_token toy_codecs "secret-key" toy_user 1000 (fun _ => 0) with
  | Ok (token, expires_at) =>
      999 < expires_at /\
      verify_jwt_token toy_codecs "secret-key" token 999 = Err InvalidTokenError
  | Err _ => False
  end.
Proof. vm_compute. split; [reflexivity|reflexivity]. Qed.

(** C1 (amended).  A token issued to [user] by [_generate_jwt_token] and
    verified with the issuing secret at any instant [now] with
    [iat <= now < exp] is accepted, and the returned payload carries [sub]
    and [user_id] equal to the user's id and [email] equal to the user's
    email.  [iat] and [exp] are the token's own claims: the naive
    timestamps of the issuing wall time and of the wall time 7 days later,
    each read with the host's UTC offset at that wall time, so [exp - iat]
    is 7 days only when no daylight-saving change falls in between. *)
Theorem verify_issued_token (C : Codecs) (jwt_secret : string) (user : User)
    (utcnow : Z) (local_offset : Z -> Z) (now : Z) (token : string) (expires_at : Z) :
  codecs_lawful C ->
  generate_jwt_token C jwt_secret user utcnow local_offset = Ok (token, expires_at) ->
  naive_timestamp local_offset utcnow <= now <
    naive_timestamp local_offset (utcnow + TOKEN_TTL) ->
  exists payload,
    verify_jwt_token C jwt_secret token now = Ok payload /\
    py_get payload "sub" = JStr user.(id) /\
    py_get payload "user_id" = JStr user.(id) /\
    py_get payload "email" = JStr user.(email).
Proof.
  intros HC Hgen Hwin.
  rewrite (verify_issued_in_window C jwt_secret user utcnow local_offset now token
             expires_at HC Hgen).
  cbv zeta.
  destruct (Z.ltb_spec now (naive_timestamp local_offset utcnow)); [lia|].
  destruct (Z.leb_spec (naive_timestamp local_offset (utcnow + TOKEN_TTL)) now); [lia|].
  eexists. split; [reflexivity|]. repeat split.
Qed.

Lemma verify_issued_token_witness :
  match generate_jwt_token toy_codecs "secret-key" toy_user 1000 toy_dst_offset with
  | Ok (token, expires_at) =>
      exists payload,
        verify_jwt_token toy_codecs "secret-key" token 5000 = Ok payload /\
        py_get payload "sub" = JStr "u1" /\ py_get payload "user_id" = JStr "u1" /\
        py_get payload "email" = JStr "a@example.com"
  | Err _ => False
  end.
Proof.
  destruct (generate_jwt_token toy_codecs "secret-key" toy_user 1000 toy_dst_offset)
    as [[token expires_at]|e] eqn:Hgen.
  - apply (verify_issued_token toy_codecs "secret-key" toy_user 1000 toy_dst_offset 5000 token
             expires_at toy_codecs_lawful Hgen).
    unfold naive_timestamp.
    replace (toy_dst_offset 1000) with 0 by reflexivity.
    replace (toy_dst_offset (1000 + TOKEN_TTL)) with 3600 by reflexivity.
    unfold TOKEN_TTL. lia.
  - vm_compute in Hgen. discriminate Hgen.
Defined.

(* ------------------------------------------------------------------ *)
(** ** Lemmas: tokens that do not carry a valid tag *)

Lemma jwt_encode_ok (C : Codecs) (payload : dict) (k tok : string) :
  jwt_encode C payload (Some k) = Ok tok ->
  hmac_prepare_key C (Some k) = Ok k /\
  let si := b64url_encode C (json_dumps C jwt_header) ++ "." ++
            b64url_encode C (json_dumps C payload) in
  tok = si ++ String "." (b64url_encode C (hmac_sha256 C k si)).
Proof.
  unfold jwt_encode. destruct (hmac_prepare_key C (Some k)) as [k0|e] eqn:Hk;
    cbn [bind]; intros H; [|discriminate].
  assert (k0 = k) as ->.
  { cbn in Hk. destruct (is_pem_format C k || is_ssh_key k); congruence. }
  injection H as <-. split; reflexivity.
Qed.

Section Forgery.

Variable C : Codecs.
Hypothesis HC : codecs_lawful C.

Lemma jws_load_error (token : string) (e : PyExc) :
  jws_load C token = Err e -> e = DecodeError.
Proof. unfold jws_load. intros H. repeat case_match; congruence. Qed.

(** With a key PyJWT accepts, [decode_complete] fails only with
    subclasses of [InvalidTokenError]. *)
Lemma jws_decode_error (token : string) (key : option string) (k : string)
    (e : PyExc) :
  hmac_prepare_key C key = Ok k ->
  jws_decode C token key = Err e ->
  is_invalid_token_error e = true /\ e <> ExpiredSignatureError.
Proof.
  intros Hk. unfold jws_decode, jws_verify_signature, bind. intros H.
  repeat case_match; simplify_eq; try (split; [reflexivity|discriminate]).
  match goal with Hl : jws_load C token = Err _ |- _ =>
    apply jws_load_error in Hl; subst end.
  split; [reflexivity|discriminate].
Qed.

Lemma verify_of_jws_error (secret token : string) (now : Z) (e : PyExc) :
  jws_decode C token (Some secret) = Err e ->
  is_invalid_token_error e = true -> e <> ExpiredSignatureError ->
  verify_jwt_token C secret token now = Err InvalidTokenError.
Proof.
  intros He Hinv Hne. unfold verify_jwt_token, jwt_decode. rewrite He. cbn [bind].
  destruct e; cbn in *; congruence.
Qed.

Lemma jws_load_signed (si : string) (sg : Bytes C) (pb : Bytes C) (si2 : string)
    (header : dict) (sg2 : Bytes C) :
  jws_load C (si ++ String "." (b64url_encode C sg)) = Ok (pb, si2, header, sg2) ->
  si2 = si /\ sg2 = sg.
Proof.
  pose proof HC as (_ & Hb64 & Hdot & _).
  unfold jws_load. rewrite rsplit_once_app by apply Hdot. rewrite Hb64.
  intros H. repeat case_match; simplify_eq; auto.
Qed.

(** A token whose signature segment encodes a tag other than the MAC of
    its own signing input under the verifying secret is rejected. *)
Lemma verify_foreign_tag (si : string) (sg : Bytes C) (secret : string) (now : Z) :
  hmac_prepare_key C (Some secret) = Ok secret ->
  sg <> hmac_sha256 C secret si ->
  verify_jwt_token C secret (si ++ String "." (b64url_encode C sg)) now =
  Err InvalidTokenError.
Proof.
  intros Hk Hne.
  assert (exists e, jws_decode C (si ++ String "." (b64url_encode C sg)) (Some secret)
                    = Err e) as [e He].
  { unfold jws_decode, jws_verify_signature, bind.
    destruct (jws_load C _) as [[[[pb si2] header] sg2]|e0] eqn:Hl; [|eauto].
    apply jws_load_signed in Hl as [-> ->].
    repeat case_match; simplify_eq; try (eexists; reflexivity).
    all: exfalso; apply Hne; destruct HC as [Heq _]; apply Heq; assumption. }
  destruct (jws_decode_error _ _ _ _ Hk He) as [Hinv Hexp].
  exact (verify_of_jws_error _ _ now _ He Hinv Hexp).
Qed.

End Forgery.

(* ------------------------------------------------------------------ *)
(** ** C3: signature integrity *)

(** C3 (counterexample).  A token issued under ["secret-key"] and verified
    under the different secret ["ssh-rsa AAAA"] fails with PyJWT's
    [InvalidKeyError], which is not an [InvalidTokenError]: [verify_jwt_token]
    lets it through unchanged instead of reporting an invalid token. *)
Lemma wrong_secret_raises_invalid_key :
  match generate_jwt_token toy_codecs "secret-key" toy_user 1000 (fun _ => 0) with
  | Ok (token, _) =>
      verify_jwt_token toy_codecs "ssh-rsa AAAA" token 5000 = Err InvalidKeyError /\
      is_invalid_token_error InvalidKeyError = false
  | Err _ => False
  end.
Proof. vm_compute. split; reflexivity. Qed.

(** C3 (amended).  Under an idealised HMAC, for every token issued by
    [_generate_jwt_token], [verify_jwt_token] fails with
    [InvalidTokenError("Invalid authentication token")], never with success
    or another error, (a) under any verifying secret that differs from the
    issuing one and that PyJWT accepts as an HMAC key (no PEM or SSH
    marker), and (b) when the signed part of the token (header and payload
    segments) is replaced by any other string while the signature segment
    is kept, for any accepted verifying secret; (c) any token whose header
    names an algorithm other than [HS256] is rejected with the same error
    under any secret. *)
Theorem verify_rejects_forgeries (C : Codecs) (jwt_secret : string) (user : User)
    (utcnow : Z) (local_offset : Z -> Z) (token : string) (expires_at : Z) :
  codecs_lawful C -> hmac_collision_free C ->
  generate_jwt_token C jwt_secret user utcnow local_offset = Ok (token, expires_at) ->
  (forall secret now,
     secret <> jwt_secret -> hmac_prepare_key C (Some secret) = Ok secret ->
     verify_jwt_token C secret token now = Err InvalidTokenError) /\
  (forall signed sig signed' secret now,
     token = signed ++ String "." sig -> str_has "." sig = false ->
     signed' <> signed -> hmac_prepare_key C (Some secret) = Ok secret ->
     verify_jwt_token C secret (signed' ++ String "." sig) now = Err InvalidTokenError) /\
  (forall tok secret now pb si header sg,
     jws_load C tok = Ok (pb, si, header, sg) ->
     py_eq_str (py_get header "alg") "HS256" = false ->
     verify_jwt_token C secret tok now = Err InvalidTokenError).
Proof.
  intros HC Hcf Hgen.
  apply generate_jwt_token_ok in Hgen as [_ Henc].
  apply jwt_encode_ok in Henc as [Hk Htok]. cbv zeta in Htok.
  set (si := b64url_encode C (json_dumps C jwt_header) ++ "." ++ _) in Htok.
  repeat split.
  - intros secret now Hne Hk'. rewrite Htok.
    apply verify_foreign_tag; [exact HC|exact Hk'|].
    intros Heq. apply Hcf in Heq as [-> _]. apply Hne. reflexivity.
  - intros signed sig signed' secret now Hsplit Hnodot Hne Hk'.
    pose proof HC as (_ & _ & Hdot & _).
    assert (Some (signed, sig) =
            Some (si, b64url_encode C (hmac_sha256 C jwt_secret si))) as Hs.
    { rewrite <- (rsplit_once_app "." signed sig Hnodot), <- Hsplit, Htok.
      apply rsplit_once_app, Hdot. }
    injection Hs as -> ->.
    apply verify_foreign_tag; [exact HC|exact Hk'|].
    intros Heq. apply Hcf in Heq as [_ ->]. apply Hne. reflexivity.
  - intros tok secret now pb si' header sg Hl Halg.
    assert (exists e, jws_decode C tok (Some secret) = Err e /\
                      (e = DecodeError \/ e = InvalidAlgorithmError)) as (e & He & Hcls).
    { unfold jws_decode, bind. rewrite Hl.
      unfold jws_verify_signature. rewrite Halg.
      destruct (py_get header "b64") as [|[]| | |]; eauto. }
    apply (verify_of_jws_error C _ _ now e He);
      destruct Hcls as [->| ->]; first [reflexivity | discriminate].
Qed.

Lemma verify_rejects_forgeries_witness :
  match generate_jwt_token toy_codecs "secret-key" toy_user 1000 (fun _ => 0) with
  | Ok (token, _) => verify_jwt_token toy_codecs "other-key" token 5000 = Err InvalidTokenError
  | Err _ => False
  end.
Proof.
  destruct (generate_jwt_token toy_codecs "secret-key" toy_user 1000 (fun _ => 0))
    as [[token expires_at]|e] eqn:Hgen.
  - destruct (verify_rejects_forgeries toy_codecs "secret-key" toy_user 1000 (fun _ => 0) token
                expires_at toy_codecs_lawful toy_hmac_collision_free Hgen)
      as (Hsecret & _ & _).
    apply Hsecret; [discriminate | vm_compute; reflexivity].
  - vm_compute in Hgen. discriminate Hgen.
Defined.

(* ------------------------------------------------------------------ *)
(** ** C4: the expiry boundary *)

(** C4.  For a token whose signature verifies under the secret and whose
    payload carries the integer expiry [E], with the [iat] and [nbf] checks
    passing at [now], [verify_jwt_token] fails with [ExpiredSignatureError]
    exactly when [E <= now]: at [now = E] it fails with that error, and at
    [now = E - 1] it returns the payload when the remaining check (no
    audience claim) passes as well. *)
Theorem verify_expiry_boundary (C : Codecs) (jwt_secret token : string)
    (payload_bytes : Bytes C) (payload : dict) (E : Z) :
  jws_decode C token (Some jwt_secret) = Ok payload_bytes ->
  json_loads C payload_bytes = Some payload ->
  dict_get payload "exp" = Some (JInt E) ->
  (forall now,
     validate_iat payload now = Ok tt -> validate_nbf payload now = Ok tt ->
     (verify_jwt_token C jwt_secret token now = Err ExpiredSignatureError <-> E <= now)) /\
  (validate_iat payload E = Ok tt -> validate_nbf payload E = Ok tt ->
   verify_jwt_token C jwt_secret token E = Err ExpiredSignatureError) /\
  (validate_iat payload (E - 1) = Ok tt -> validate_nbf payload (E - 1) = Ok tt ->
   validate_aud payload = Ok tt ->
   verify_jwt_token C jwt_secret token (E - 1) = Ok payload).
Proof.
  intros Hjws Hjson Hexp.
  assert (Hv : forall now,
             validate_iat payload now = Ok tt -> validate_nbf payload now = Ok tt ->
             verify_jwt_token C jwt_secret token now =
             if Z.leb E now then Err ExpiredSignatureError
             else match validate_aud payload with
                  | Ok _ => Ok payload
                  | Err _ => Err InvalidTokenError
                  end).
  { intros now Hiat Hnbf.
    unfold verify_jwt_token, jwt_decode. rewrite Hjws. cbn [bind]. rewrite Hjson.
    unfold validate_claims. rewrite Hiat, Hnbf. cbn [bind].
    unfold validate_exp, py_in, py_get. rewrite Hexp. cbn [py_int].
    destruct (Z.leb E now); [reflexivity|]. cbn [bind].
    unfold validate_aud. destruct (_ && _); reflexivity. }
  split; [|split].
  - intros now Hiat Hnbf. rewrite (Hv now Hiat Hnbf).
    destruct (Z.leb_spec E now); split; intros Hr; try lia; try reflexivity.
    destruct (validate_aud payload); discriminate.
  - intros Hiat Hnbf. rewrite (Hv E Hiat Hnbf), Z.leb_refl. reflexivity.
  - intros Hiat Hnbf Haud. rewrite (Hv (E - 1) Hiat Hnbf), Haud.
    destruct (Z.leb_spec E (E - 1)); [lia|reflexivity].
Qed.

Lemma verify_expiry_boundary_witness :
  verify_jwt_token toy_codecs "secret-key" toy_token 605800 = Err ExpiredSignatureError /\
  verify_jwt_token toy_codecs "secret-key" toy_token (605800 - 1) = Ok toy_payload.
Proof.
  assert (H1 : jws_decode toy_codecs toy_token (Some "secret-key") =
               Ok (json_dumps toy_codecs toy_payload)) by (vm_compute; reflexivity).
  assert (H2 : json_loads toy_codecs (json_dumps toy_codecs toy_payload) = Some toy_payload)
    by (vm_compute; reflexivity).
  assert (H3 : dict_get toy_payload "exp" = Some (JInt 605800)) by (vm_compute; reflexivity).
  destruct (verify_expiry_boundary toy_codecs "secret-key" toy_token _ toy_payload 605800
              H1 H2 H3) as (_ & Hat & Hbefore).
  split; [apply Hat | apply Hbefore]; vm_compute; reflexivity.
Defined.

(* ------------------------------------------------------------------ *)
(** ** Lemmas: the middleware *)

Lemma str_in_spec (s : string) (l : list string) : str_in s l = true <-> In s l.
Proof.
  unfold str_in. rewrite existsb_exists. split.
  - intros (x & Hx & He). apply String.eqb_eq in He. subst. exact Hx.
  - intros Hin. exists s. split; [exact Hin|]. apply String.eqb_refl.
Qed.

Lemma bypassed_spec (request : Request) :
  bypassed request = true <->
  request.(method) = "OPTIONS" \/
  In request.(path) ["/api/auth/signup"; "/api/auth/login"; "/"; "/health"; "/docs";
                     "/redoc"; "/openapi.json"; "/favicon.ico"].
Proof.
  unfold bypassed. rewrite !orb_true_iff, !str_in_spec, String.eqb_eq.
  change ["/api/auth/signup"; "/api/auth/login"; "/"; "/health"; "/docs";
          "/redoc"; "/openapi.json"; "/favicon.ico"]
    with (public_auth_paths ++ health_docs_paths)%list.
  rewrite in_app_iff. tauto.
Qed.

Lemma dispatch_except_401 (r : Raised) : fst (dispatch_except r) = 401.
Proof.
  destruct r as [e|st d]; [|reflexivity].
  destruct e; cbn; try reflexivity; destruct (is_invalid_token_error _); reflexivity.
Qed.

Lemma prefix_nonempty (p h : string) :
  p <> EmptyString -> String.prefix p h = true -> String.eqb h "" = false.
Proof. destruct p, h; cbn; congruence. Qed.

(** [dispatch] on a non-bypassed request with a [Bearer] header. *)
Lemma dispatch_bearer (C : Codecs) (secret : option string) (now : Z)
    (request : Request) (h token : string) :
  bypassed request = false ->
  request.(authorization) = Some h ->
  String.prefix "Bearer " h = true ->
  nth_error (str_split " " h) 1 = Some token ->
  dispatch C secret now request =
  match dispatch_try C secret token now with
  | inl (user_id, em) => CallNext (authenticated request user_id em)
  | inr r => let (st, detail) := dispatch_except r in HttpRaise st detail
  end.
Proof.
  intros Hb Hauth Hpre Htok. unfold bypassed in Hb.
  apply orb_false_iff in Hb as [Hb Hhd]. apply orb_false_iff in Hb as [Hopt Hpub].
  unfold dispatch. rewrite Hopt, Hpub, Hhd, Hauth.
  rewrite (prefix_nonempty "Bearer " h) by (discriminate || exact Hpre).
  rewrite Hpre. cbn [negb]. rewrite Htok. reflexivity.
Qed.

(** [dispatch] on a non-bypassed request reaches [call_next] only with the
    identity of a token [jwt.decode] accepted. *)
Lemma dispatch_call_next_inv (C : Codecs) (secret : option string) (now : Z)
    (request r : Request) :
  bypassed request = false ->
  dispatch C secret now request = CallNext r ->
  exists h token payload,
    request.(authorization) = Some h /\
    String.prefix "Bearer " h = true /\
    nth_error (str_split " " h) 1 = Some token /\
    jwt_decode C token secret now = Ok payload /\
    truthy (py_or (py_get payload "user_id") (py_get payload "sub")) = true /\
    r = authenticated request (py_or (py_get payload "user_id") (py_get payload "sub"))
          (py_get payload "email").
Proof.
  intros Hb Hd. pose proof Hb as Hb'. unfold bypassed in Hb'.
  apply orb_false_iff in Hb' as [Hb' Hhd]. apply orb_false_iff in Hb' as [Hopt Hpub].
  unfold dispatch in Hd. rewrite Hopt, Hpub, Hhd in Hd.
  destruct (authorization request) as [h|] eqn:Hauth; [|discriminate].
  destruct (String.eqb h "") eqn:He; [discriminate|].
  destruct (String.prefix "Bearer " h) eqn:Hpre; [|discriminate].
  cbn [negb] in Hd.
  destruct (nth_error (str_split " " h) 1) as [token|] eqn:Htok; [|discriminate].
  unfold dispatch_try in Hd.
  destruct (jwt_decode C token secret now) as [payload|e] eqn:Hdec.
  - destruct (truthy (py_or (py_get payload "user_id") (py_get payload "sub"))) eqn:Ht;
      cbn in Hd; [|discriminate].
    injection Hd as <-. exists h, token, payload. repeat split; assumption.
  - destruct (dispatch_except (RJwt e)); discriminate.
Qed.

(* ------------------------------------------------------------------ *)
(** ** C5: which requests bypass authentication *)

(** C5 (counterexample).  A [GET /docs] request with no [Authorization]
    header is handed to [call_next] unchanged, although [/docs] is none of
    login, signup, health or a CORS preflight. *)
Lemma docs_request_bypasses_authentication :
  let request := {| method := "GET"; path := "/docs"; authorization := None;
                    state := {| st_user_id := None; st_email := None |} |} in
  dispatch toy_codecs (Some "secret-key") 5000 request = CallNext request /\
  request.(method) <> "OPTIONS" /\
  ~ In request.(path) ["/api/auth/login"; "/api/auth/signup"; "/health"].
Proof.
  cbv zeta. split; [reflexivity|]. split; [discriminate|].
  cbn. intros [H|[H|[H|[]]]]; discriminate H.
Qed.

(** C5 (amended).  The Gatekeeper bypasses authentication exactly for
    [OPTIONS] requests and the paths [/api/auth/signup], [/api/auth/login],
    [/], [/health], [/docs], [/redoc], [/openapi.json] and [/favicon.ico]:
    such a request is passed to [call_next] unmodified, whatever its
    headers; any other request reaches [call_next] only with a [Bearer]
    header whose token [jwt.decode] accepts. *)
Theorem dispatch_bypass_exactly (C : Codecs) (secret : option string) (now : Z)
    (request : Request) :
  (bypassed request = true <->
   request.(method) = "OPTIONS" \/
   In request.(path) ["/api/auth/signup"; "/api/auth/login"; "/"; "/health"; "/docs";
                      "/redoc"; "/openapi.json"; "/favicon.ico"]) /\
  (bypassed request = true -> dispatch C secret now request = CallNext request) /\
  (bypassed request = false -> forall r, dispatch C secret now request = CallNext r ->
   exists h token payload,
     request.(authorization) = Some h /\ String.prefix "Bearer " h = true /\
     nth_error (str_split " " h) 1 = Some token /\
     jwt_decode C token secret now = Ok payload).
Proof.
  split; [apply bypassed_spec|split].
  - unfold bypassed, dispatch. intros Hb.
    destruct (String.eqb (method request) "OPTIONS"); [reflexivity|].
    destruct (str_in (path request) public_auth_paths); [reflexivity|].
    destruct (str_in (path request) health_docs_paths); [reflexivity|].
    discriminate Hb.
  - intros Hb r Hd.
    destruct (dispatch_call_next_inv C secret now request r Hb Hd)
      as (h & token & payload & H1 & H2 & H3 & H4 & _).
    exists h, token, payload. repeat split; assumption.
Qed.

(* ------------------------------------------------------------------ *)
(** ** C9: tokens without a subject claim *)

(** C9 (counterexample).  A correctly signed, unexpired token whose payload
    is [{"user_id": "u1"}] (no [sub]) is returned by [verify_jwt_token], and
    the Gatekeeper attaches ["u1"] to the request. *)
Lemma token_without_subject_accepted :
  match jwt_encode toy_codecs [("user_id", JStr "u1")] (Some "secret-key") with
  | Ok token =>
      py_in "sub" [("user_id", JStr "u1")] = false /\
      verify_jwt_token toy_codecs "secret-key" token 5000 = Ok [("user_id", JStr "u1")] /\
      dispatch toy_codecs (Some "secret-key") 5000
        {| method := "GET"; path := "/api/u1/tasks";
           authorization := Some ("Bearer " ++ token);
           state := {| st_user_id := None; st_email := None |} |} =
      CallNext {| method := "GET"; path := "/api/u1/tasks";
                  authorization := Some ("Bearer " ++ token);
                  state := {| st_user_id := Some (JStr "u1"); st_email := Some JNull |} |}
  | Err _ => False
  end.
Proof. vm_compute. split; [reflexivity|split; reflexivity]. Qed.

(** C9 (amended).  [verify_jwt_token] returns the payload whenever
    [jwt.decode] accepts the token, whether or not it has a [sub] claim.
    The Gatekeeper takes the identifier from [user_id], falling back to
    [sub]: on a non-bypassed request whose [Bearer] token [jwt.decode]
    accepts, it rejects with status 401 exactly when neither claim is
    truthy, and otherwise attaches that identifier and the [email] claim
    and calls the next handler. *)
Theorem subject_not_required (C : Codecs) :
  (forall jwt_secret token now payload,
     jwt_decode C token (Some jwt_secret) now = Ok payload ->
     verify_jwt_token C jwt_secret token now = Ok payload) /\
  (forall secret now request h token payload,
     bypassed request = false ->
     request.(authorization) = Some h -> String.prefix "Bearer " h = true ->
     nth_error (str_split " " h) 1 = Some token ->
     jwt_decode C token secret now = Ok payload ->
     let user_id := py_or (py_get payload "user_id") (py_get payload "sub") in
     (truthy user_id = false ->
      exists detail, dispatch C secret now request = HttpRaise 401 detail) /\
     (truthy user_id = true ->
      dispatch C secret now request =
      CallNext (authenticated request user_id (py_get payload "email")))).
Proof.
  split.
  - intros jwt_secret token now payload Hdec.
    unfold verify_jwt_token. rewrite Hdec. reflexivity.
  - intros secret now request h token payload Hb Hauth Hpre Htok Hdec. cbv zeta.
    rewrite (dispatch_bearer C secret now request h token Hb Hauth Hpre Htok).
    unfold dispatch_try. rewrite Hdec.
    split; intros Ht; rewrite Ht; cbn [negb]; [|reflexivity].
    eexists. reflexivity.
Qed.

Lemma subject_not_required_witness :
  match jwt_encode toy_codecs [("user_id", JStr "u1")] (Some "secret-key") with
  | Ok token =>
      verify_jwt_token toy_codecs "secret-key" token 5000 = Ok [("user_id", JStr "u1")]
  | Err _ => False
  end.
Proof.
  destruct (jwt_encode toy_codecs [("user_id", JStr "u1")] (Some "secret-key"))
    as [token|e] eqn:Henc.
  - destruct (subject_not_required toy_codecs) as [Hverify _].
    apply Hverify. vm_compute in Henc. injection Henc as <-.
    vm_compute. reflexivity.
  - vm_compute in Henc. discriminate Henc.
Defined.

(* ------------------------------------------------------------------ *)
(** ** C10: the Gatekeeper's outcomes on protected paths *)

(** C10.  On a non-bypassed request, [dispatch] either attaches a truthy
    identifier (the [user_id] claim, else [sub]) and the [email] claim of a
    token [jwt.decode] accepted and calls the next handler, or raises
    [HTTPException] with status 401; it never fails with another
    exception (the [split(" ")[1]] outside the [try] cannot fail after the
    [Bearer ] prefix check), so no request whose token fails verification
    reaches the next handler. *)
Theorem dispatch_authenticates_or_401 (C : Codecs) (secret : option string) (now : Z)
    (request : Request) :
  bypassed request = false ->
  (exists h token payload,
     request.(authorization) = Some h /\
     nth_error (str_split " " h) 1 = Some token /\
     jwt_decode C token secret now = Ok payload /\
     truthy (py_or (py_get payload "user_id") (py_get payload "sub")) = true /\
     dispatch C secret now request =
     CallNext (authenticated request (py_or (py_get payload "user_id") (py_get payload "sub"))
                 (py_get payload "email"))) \/
  (exists detail, dispatch C secret now request = HttpRaise 401 detail).
Proof.
  intros Hb.
  assert (Hraise : forall r, exists detail,
             (let (st, d) := dispatch_except r in HttpRaise st d) = HttpRaise 401 detail).
  { intros r. pose proof (dispatch_except_401 r) as H401.
    destruct (dispatch_except r) as [st d]. cbn in H401. subst. eauto. }
  pose proof Hb as Hb'. unfold bypassed in Hb'.
  apply orb_false_iff in Hb' as [Hb' Hhd]. apply orb_false_iff in Hb' as [Hopt Hpub].
  destruct (authorization request) as [h|] eqn:Hauth.
  2:{ right. unfold dispatch. rewrite Hopt, Hpub, Hhd, Hauth. eauto. }
  destruct (String.prefix "Bearer " h) eqn:Hpre.
  2:{ right. unfold dispatch. rewrite Hopt, Hpub, Hhd, Hauth, Hpre.
      destruct (String.eqb h ""); eauto. }
  destruct (bearer_split_index h Hpre) as [token Htok].
  rewrite (dispatch_bearer C secret now request h token Hb Hauth Hpre Htok).
  unfold dispatch_try.
  destruct (jwt_decode C token secret now) as [payload|e] eqn:Hdec; [|right; apply Hraise].
  destruct (truthy (py_or (py_get payload "user_id") (py_get payload "sub"))) eqn:Ht;
    cbn [negb].
  - left. exists h, token, payload. repeat split; assumption.
  - right. apply Hraise.
Qed.

Lemma dispatch_authenticates_or_401_witness :
  exists detail,
    dispatch toy_codecs (Some "secret-key") 5000
      {| method := "GET"; path := "/api/u1/tasks"; authorization := Some "Bearer abc";
         state := {| st_user_id := None; st_email := None |} |} = HttpRaise 401 detail.
Proof.
  destruct (dispatch_authenticates_or_401 toy_codecs (Some "secret-key") 5000
              {| method := "GET"; path := "/api/u1/tasks"; authorization := Some "Bearer abc";
                 state := {| st_user_id := None; st_email := None |} |} eq_refl)
    as [(h & token & payload & Hauth & Htok & Hdec & _)|Hr].
  - cbn in Hauth. injection Hauth as <-. vm_compute in Htok. injection Htok as <-.
    vm_compute in Hdec. discriminate Hdec.
  - exact Hr.
Defined.

Lemma dispatch_bypass_exactly_witness :
  dispatch toy_codecs (Some "secret-key") 5000
    {| method := "POST"; path := "/api/auth/login"; authorization := None;
       state := {| st_user_id := None; st_email := None |} |} =
  CallNext {| method := "POST"; path := "/api/auth/login"; authorization := None;
              state := {| st_user_id := None; st_email := None |} |}.
Proof.
  destruct (dispatch_bypass_exactly toy_codecs (Some "secret-key") 5000
              {| method := "POST"; path := "/api/auth/login"; authorization := None;
                 state := {| st_user_id := None; st_email := None |} |})
    as (_ & Hbypass & _).
  apply Hbypass. reflexivity.
Defined.

(* ------------------------------------------------------------------ *)
(** ** C2: cross-user isolation on the task routes *)

(** C2 (counterexample).  A request of user [u1] to create a task under
    the path of user [u2] with a blank title does not get the 403 access
    denial: FastAPI validates the body before the handler runs and answers
    422.  (No task is read or written either.) *)
Lemma cross_user_blank_title_422 :
  create_task_route ["u1"; "u2"] (JStr "u1") "u2" "   " None [] 1 =
    (HttpError 422 "Unprocessable Entity", [], []).
Proof. vm_compute. reflexivity. Qed.

(** C2 (amended).  When the identity [S] the middleware attached differs
    from the user id [U] of the task path, every task handler, reached with
    a body and path parameters that passed FastAPI's validation, raises
    [HTTPException(403, "Access denied. ...")] (a status distinct from the
    middleware's 401) before touching the session: the task table is
    unchanged and no read, insert, delete or commit is performed.  At the
    routes with a body, a body that fails validation gets 422 instead,
    also before any database operation. *)
Theorem task_access_denied (user_ids : list string) (S : jvalue) (U : string) (req : TaskRequest)
    (db : list Task) (next_id : Z) :
  py_eq_str S U = false ->
  handle_task_request user_ids S U req db next_id = (HttpError 403 access_denied_msg, db, []) /\
  403 <> 401 /\
  (forall ti d,
     create_task_route user_ids S U ti d db next_id =
       (if create_body_valid ti d then (HttpError 403 access_denied_msg, db, [])
        else validation_failed db)) /\
  (forall tid ti d,
     update_task_route user_ids S U tid ti d db next_id =
       (if update_body_valid ti d then (HttpError 403 access_denied_msg, db, [])
        else validation_failed db)).
Proof.
  intros Hne.
  assert (Hh : forall r, handle_task_request user_ids S U r db next_id =
                         (HttpError 403 access_denied_msg, db, [])).
  { intros r. unfold handle_task_request, validate_user_access. rewrite Hne. reflexivity. }
  split; [apply Hh|]. split; [discriminate|]. split.
  - intros ti d. unfold create_task_route, create_body_valid.
    destruct (validate_create_title ti), (validate_description d); cbn [is_some andb];
      [apply Hh|reflexivity..].
  - intros tid ti d. unfold update_task_route, update_body_valid.
    destruct (validate_update_title ti), (validate_description d); cbn [is_some andb];
      [apply Hh|reflexivity..].
Qed.

Lemma task_access_denied_witness :
  handle_task_request ["u1"; "u2"] (JStr "u1") "u2" ListTasks [] 1 =
    (HttpError 403 access_denied_msg, [], []) /\
  create_task_route ["u1"; "u2"] (JStr "u1") "u2" "buy milk" None [] 1 =
    (HttpError 403 access_denied_msg, [], []).
Proof.
  destruct (task_access_denied ["u1"; "u2"] (JStr "u1") "u2" ListTasks [] 1)
    as (Hh & _ & Hc & _).
  - reflexivity.
  - split; [exact Hh|]. rewrite Hc. reflexivity.
Defined.

(* ------------------------------------------------------------------ *)
(** ** C6: signup with a registered email *)

(** C6.  When a user with email [e] is stored, [signup(e, password, name)]
    raises [ValueError] with the duplicate-email message after the lookup
    alone: the password is not hashed, no user is inserted, nothing is
    committed and the user table is unchanged; the route answers 409 with
    that message. *)
Theorem signup_duplicate_email (bcrypt_core : string -> string -> Z -> string -> option string)
    (users : list User) (e password : string) (n : option string)
    (salt new_id : string) (utcnow : Z) (existing : User) :
  find_by_email users e = Some existing ->
  signup bcrypt_core users e password n salt new_id utcnow =
    (Err (ValueError duplicate_email_msg), users, [QueryUserByEmail e]) /\
  signup_route_response (fst (fst (signup bcrypt_core users e password n salt new_id utcnow)))
    = (409, duplicate_email_msg).
Proof.
  intros Hfind. unfold signup. rewrite Hfind. split; reflexivity.
Qed.

Lemma signup_duplicate_email_witness :
  signup toy_bcrypt_core [toy_user] "a@example.com" "password123" None
         "$2b$12$abcdefghijklmnopqrstuv" "u2" 2000 =
    (Err (ValueError duplicate_email_msg), [toy_user], [QueryUserByEmail "a@example.com"]) /\
  signup_route_response (fst (fst (signup toy_bcrypt_core [toy_user] "a@example.com"
         "password123" None "$2b$12$abcdefghijklmnopqrstuv" "u2" 2000)))
    = (409, duplicate_email_msg).
Proof. apply (signup_duplicate_email _ _ _ _ _ _ _ _ toy_user). reflexivity. Defined.

(* ------------------------------------------------------------------ *)
(** ** C7: unknown email and wrong password look alike *)

(** C7.  Login with an email that has no stored user and login with a
    stored email whose password [bcrypt.checkpw] rejects both raise
    [ValueError("Invalid email or password")], and the route answers both
    with the same status and detail. *)
Theorem login_unknown_email_like_wrong_password
    (bcrypt_core : string -> string -> Z -> string -> option string)
    (C : Codecs) (jwt_secret : string) (users : list User)
    (e1 password1 e2 password2 : string) (utcnow : Z) (local_offset : Z -> Z) (user : User) :
  find_by_email users e1 = None ->
  find_by_email users e2 = Some user ->
  bcrypt_checkpw bcrypt_core password2 user.(password_hash) = Ok false ->
  login bcrypt_core C jwt_secret users e1 password1 utcnow local_offset =
    Err (ValueError invalid_credentials_msg) /\
  login bcrypt_core C jwt_secret users e2 password2 utcnow local_offset =
    Err (ValueError invalid_credentials_msg) /\
  login_route_response (login bcrypt_core C jwt_secret users e1 password1 utcnow local_offset) =
  login_route_response (login bcrypt_core C jwt_secret users e2 password2 utcnow local_offset).
Proof.
  intros Hnone Hsome Hck.
  assert (H1 : login bcrypt_core C jwt_secret users e1 password1 utcnow local_offset =
               Err (ValueError invalid_credentials_msg)).
  { unfold login. rewrite Hnone. reflexivity. }
  assert (H2 : login bcrypt_core C jwt_secret users e2 password2 utcnow local_offset =
               Err (ValueError invalid_credentials_msg)).
  { unfold login. rewrite Hsome, Hck. reflexivity. }
  rewrite H1, H2. repeat split.
Qed.

Lemma login_unknown_email_like_wrong_password_witness :
  login toy_bcrypt_core toy_codecs "secret-key" [toy_user] "b@example.com" "x" 1000 (fun _ => 0) =
    Err (ValueError invalid_credentials_msg) /\
  login toy_bcrypt_core toy_codecs "secret-key" [toy_user] "a@example.com" "wrong" 1000 (fun _ => 0) =
    Err (ValueError invalid_credentials_msg) /\
  login_route_response
    (login toy_bcrypt_core toy_codecs "secret-key" [toy_user] "b@example.com" "x" 1000 (fun _ => 0)) =
  login_route_response
    (login toy_bcrypt_core toy_codecs "secret-key" [toy_user] "a@example.com" "wrong" 1000 (fun _ => 0)).
Proof.
  apply (login_unknown_email_like_wrong_password _ _ _ _ _ _ _ _ _ _ toy_user);
    vm_compute; reflexivity.
Defined.

(* ------------------------------------------------------------------ *)
(** ** C8: checking a password against a malformed digest *)

(** Rust's [u32] parse takes a leading ['+']: a digest with cost ["+4"]
    has the same salt as one with cost ["4"], and [checkpw] compares
    digests instead of raising on it. *)
Lemma bcrypt_plus_cost_parses :
  bcrypt_parse_salt "$2b$+4$abcdefghijklmnopqrstuvXYZ" =
    Some ("2b", 4, "abcdefghijklmnopqrstuv").
Proof. vm_compute. reflexivity. Qed.

(** C8 (counterexample).  [bcrypt.checkpw("password123", "")] does not
    return [False]: it raises [ValueError("Invalid salt")]. *)
Lemma checkpw_malformed_digest_raises :
  bcrypt_checkpw toy_bcrypt_core "password123" "" = Err (ValueError "Invalid salt").
Proof. reflexivity. Qed.

(** C8 (amended).  [bcrypt.checkpw] raises [ValueError("Invalid salt")] on
    a digest whose salt part does not parse (as bcrypt 4 parses it: three
    nonempty ['$'] parts, a known version, a [u32] cost, a sign ['+']
    allowed, and 22 salt characters); when [checkpw] raises a
    [ValueError] on a stored user's digest, [login] raises it too and the
    login route answers with the same 401 status and
    ["Invalid email or password"] detail as for a wrong password. *)
Theorem malformed_digest_rejected_as_invalid_credentials
    (bcrypt_core : string -> string -> Z -> string -> option string)
    (C : Codecs) (jwt_secret : string) (users : list User) (e : string)
    (utcnow : Z) (local_offset : Z -> Z) (user : User) :
  (forall password digest, bcrypt_parse_salt digest = None ->
     bcrypt_checkpw bcrypt_core password digest = Err (ValueError "Invalid salt")) /\
  (forall password m, find_by_email users e = Some user ->
     bcrypt_checkpw bcrypt_core password user.(password_hash) = Err (ValueError m) ->
     login bcrypt_core C jwt_secret users e password utcnow local_offset =
       Err (ValueError m) /\
     login_route_response (login bcrypt_core C jwt_secret users e password utcnow local_offset)
       = (401, invalid_credentials_msg)).
Proof.
  split.
  - intros password digest Hp. unfold bcrypt_checkpw, bcrypt_hashpw. rewrite Hp. reflexivity.
  - intros password m Hfind Hck.
    assert (Hl : login bcrypt_core C jwt_secret users e password utcnow local_offset =
                 Err (ValueError m)).
    { unfold login. rewrite Hfind, Hck. reflexivity. }
    rewrite Hl. split; reflexivity.
Qed.

Lemma malformed_digest_rejected_as_invalid_credentials_witness :
  login_route_response
    (login toy_bcrypt_core toy_codecs "secret-key"
       [{| id := "u1"; email := "a@example.com"; password_hash := "not-a-hash";
           name := None; created_at := 1000; updated_at := 1000 |}]
       "a@example.com" "password123" 1000 (fun _ => 0)) = (401, invalid_credentials_msg).
Proof.
  destruct (malformed_digest_rejected_as_invalid_credentials toy_bcrypt_core toy_codecs
              "secret-key"
              [{| id := "u1"; email := "a@example.com"; password_hash := "not-a-hash";
                  name := None; created_at := 1000; updated_at := 1000 |}]
              "a@example.com" 1000 (fun _ => 0)
              {| id := "u1"; email := "a@example.com"; password_hash := "not-a-hash";
                 name := None; created_at := 1000; updated_at := 1000 |})
    as [Hparse Hlogin].
  apply (Hlogin "password123" "Invalid salt"); [reflexivity|].
  apply Hparse. reflexivity.
Defined.

(* ------------------------------------------------------------------ *)
(** ** Lemmas: the task table *)

Lemma filter_bool {A} (f : A -> bool) (l : list A) :
  filter (fun x => f x) l = List.filter f l.
Proof.
  induction l as [|x l IH]; [reflexivity|].
  rewrite filter_cons. cbn. destruct (f x); cbn; rewrite IH; reflexivity.
Qed.

Lemma find_task_some (db : list Task) (tid : Z) (user_id : string) (t : Task) :
  find_task db tid user_id = Some t ->
  In t db /\ t.(task_id) = tid /\ t.(task_user_id) = user_id.
Proof.
  unfold find_task. intros H. destruct (find_some _ _ H) as [Hin Hp].
  apply andb_true_iff in Hp as [H1 H2].
  apply Z.eqb_eq in H1. apply String.eqb_eq in H2. auto.
Qed.

Lemma find_task_none_iff (db : list Task) (tid : Z) (user_id : string) :
  find_task db tid user_id = None <->
  (forall t, In t db -> t.(task_id) = tid -> t.(task_user_id) <> user_id).
Proof.
  unfold find_task. induction db as [|x db IH]; cbn.
  - split; [intros _ t []|reflexivity].
  - destruct (Z.eqb_spec (task_id x) tid) as [Hid|Hid];
    destruct (String.eqb_spec (task_user_id x) user_id) as [Hu|Hu]; cbn;
    try (rewrite IH; split;
         [intros H t [<-|Hin] Ht Ho; [congruence|exact (H t Hin Ht Ho)]
         |intros H t Hin; apply H; right; exact Hin]).
    split; [discriminate|]. intros H. exfalso. exact (H x (or_introl eq_refl) Hid Hu).
Qed.

Lemma task_ids_unique (db : list Task) (x y : Task) :
  List.NoDup (map task_id db) -> In x db -> In y db ->
  x.(task_id) = y.(task_id) -> x = y.
Proof.
  induction db as [|z db IH]; intros Hnd Hx Hy Heq; [destruct Hx|].
  cbn in Hnd. apply NoDup_cons_iff in Hnd as [Hnin Hnd].
  destruct Hx as [<-|Hx], Hy as [<-|Hy]; auto.
  - exfalso. apply Hnin. rewrite Heq. apply in_map. exact Hy.
  - exfalso. apply Hnin. rewrite <- Heq. apply in_map. exact Hx.
Qed.

Lemma put_task_ids (db : list Task) (t : Task) :
  map task_id (put_task db t) = map task_id db.
Proof.
  unfold put_task. rewrite map_map. apply map_ext. intros x.
  destruct (Z.eqb_spec (task_id x) (task_id t)); congruence.
Qed.

(** Replacing the row that has [t]'s id by [t] itself changes nothing. *)
Lemma put_task_same (db : list Task) (t : Task) :
  (forall x, In x db -> x.(task_id) = t.(task_id) -> x = t) ->
  put_task db t = db.
Proof.
  intros H. unfold put_task. rewrite <- (map_id db) at 2. apply map_ext_in.
  intros x Hin. destruct (Z.eqb_spec (task_id x) (task_id t)) as [E|E]; [|reflexivity].
  symmetry. exact (H x Hin E).
Qed.

Lemma put_task_put_task (db : list Task) (a b : Task) :
  a.(task_id) = b.(task_id) -> put_task (put_task db a) b = put_task db b.
Proof.
  intros Hab. unfold put_task. rewrite map_map. apply map_ext. intros x.
  destruct (Z.eqb_spec (task_id x) (task_id a)) as [E|E].
  - rewrite Hab, Z.eqb_refl. rewrite <- Hab, E, Z.eqb_refl. reflexivity.
  - rewrite <- Hab. destruct (Z.eqb_spec (task_id x) (task_id a)); [contradiction|reflexivity].
Qed.

Lemma find_task_put_task (db : list Task) (tid : Z) (user_id : string) (t' : Task) :
  t'.(task_id) = tid -> t'.(task_user_id) = user_id ->
  (forall x, In x db -> x.(task_id) = tid -> x.(task_user_id) = user_id) ->
  (exists x, In x db /\ x.(task_id) = tid) ->
  find_task (put_task db t') tid user_id = Some t'.
Proof.
  intros Hid Hu Hown Hex. unfold find_task, put_task.
  induction db as [|x db IH]; [destruct Hex as (? & [] & _)|].
  cbn. destruct (Z.eqb_spec (task_id x) (task_id t')) as [E|E].
  - cbn. rewrite Hid, Hu, Z.eqb_refl, String.eqb_refl. reflexivity.
  - cbn. destruct (Z.eqb_spec (task_id x) tid) as [E'|E']; [congruence|]. cbn.
    apply IH.
    + intros y Hy. apply Hown. right. exact Hy.
    + destruct Hex as (y & [<-|Hy] & Hyid); [congruence|]. exists y. auto.
Qed.

Lemma other_rows_map (U : string) (f : Task -> Task) (db : list Task) :
  (forall x, In x db -> f x = x \/
     (x.(task_user_id) = U /\ (f x).(task_user_id) = U)) ->
  List.filter (fun t => negb (String.eqb t.(task_user_id) U)) (map f db) =
  List.filter (fun t => negb (String.eqb t.(task_user_id) U)) db.
Proof.
  induction db as [|x db IH]; intros H; [reflexivity|]. cbn.
  rewrite IH by (intros y Hy; apply H; right; exact Hy).
  destruct (H x (or_introl eq_refl)) as [->|[Hx Hfx]]; [reflexivity|].
  rewrite Hx, Hfx, String.eqb_refl. reflexivity.
Qed.

Lemma other_rows_filter (U : string) (p : Task -> bool) (db : list Task) :
  (forall x, In x db -> p x = false -> x.(task_user_id) = U) ->
  List.filter (fun t => negb (String.eqb t.(task_user_id) U)) (List.filter p db) =
  List.filter (fun t => negb (String.eqb t.(task_user_id) U)) db.
Proof.
  induction db as [|x db IH]; intros H; [reflexivity|]. cbn.
  rewrite <- IH by (intros y Hy; apply H; right; exact Hy).
  destruct (p x) eqn:E; [reflexivity|].
  rewrite (H x (or_introl eq_refl) E), String.eqb_refl. reflexivity.
Qed.

Lemma nodup_map_filter {A B} (f : A -> B) (p : A -> bool) (l : list A) :
  List.NoDup (map f l) -> List.NoDup (map f (List.filter p l)).
Proof.
  induction l as [|x l IH]; intros H; [constructor|]. cbn in H.
  apply NoDup_cons_iff in H as [Hnin Hnd]. cbn. destruct (p x); [|auto].
  cbn. constructor; [|auto]. intros Hin. apply Hnin.
  apply in_map_iff in Hin as (y & Hy & Hyin). apply filter_In in Hyin as [Hyin _].
  rewrite <- Hy. apply in_map. exact Hyin.
Qed.

Lemma other_rows_put_task (U : string) (db : list Task) (t0 t' : Task) :
  List.NoDup (map task_id db) -> In t0 db -> t0.(task_user_id) = U ->
  t'.(task_id) = t0.(task_id) -> t'.(task_user_id) = U ->
  List.filter (fun t => negb (String.eqb t.(task_user_id) U)) (put_task db t') =
  List.filter (fun t => negb (String.eqb t.(task_user_id) U)) db.
Proof.
  intros Hnd Hin Hu Hid Hu'. unfold put_task. apply other_rows_map.
  intros x Hx. destruct (Z.eqb_spec (task_id x) (task_id t')) as [E|E]; [|left; reflexivity].
  right. rewrite (task_ids_unique db x t0 Hnd Hx Hin ltac:(congruence)). auto.
Qed.

(* ------------------------------------------------------------------ *)
(** ** Task routes: properties of the handlers *)

(** Every task a task handler returns belongs to the user of the path. *)
Theorem task_responses_owned (user_ids : list string) (S : jvalue) (U : string) (req : TaskRequest)
    (db : list Task) (next_id : Z) (st : Z) (ts : list Task) (db' : list Task)
    (ops : list DbOp) :
  handle_task_request user_ids S U req db next_id = (Respond st ts, db', ops) ->
  forall t, In t ts -> t.(task_user_id) = U.
Proof.
  intros H t Hin. unfold handle_task_request in H.
  destruct (validate_user_access S U) as [[? ?]|]; [discriminate|].
  destruct req as [ti d| |tid|tid ti d|tid|tid].
  - destruct (str_in U user_ids); [|discriminate].
    injection H as _ <- _ _. destruct Hin as [<-|[]]. reflexivity.
  - injection H as _ <- _ _. rewrite (filter_bool (fun t => String.eqb (task_user_id t) U))
      in Hin. apply filter_In in Hin as [_ Hu]. apply String.eqb_eq. exact Hu.
  - destruct (find_task db tid U) as [t0|] eqn:Hf; [|discriminate].
    injection H as _ <- _ _. destruct Hin as [<-|[]]. apply (find_task_some _ _ _ _ Hf).
  - destruct (find_task db tid U) as [t0|] eqn:Hf; [|discriminate].
    injection H as _ <- _ _. destruct Hin as [<-|[]]. apply (find_task_some _ _ _ _ Hf).
  - destruct (find_task db tid U) as [t0|] eqn:Hf; [|discriminate].
    injection H as _ <- _ _. destruct Hin.
  - destruct (find_task db tid U) as [t0|] eqn:Hf; [|discriminate].
    injection H as _ <- _ _. destruct Hin as [<-|[]]. apply (find_task_some _ _ _ _ Hf).
Qed.

Lemma task_responses_owned_witness :
  handle_task_request ["u1"; "u2"] (JStr "u1") "u1" ListTasks
    [{| task_id := 1; task_user_id := "u1"; title := "a";
         description := None; completed := false |};
     {| task_id := 2; task_user_id := "u2"; title := "b";
         description := None; completed := false |}] 3 =
    (Respond 200 [{| task_id := 1; task_user_id := "u1"; title := "a";
                  description := None; completed := false |}],
     [{| task_id := 1; task_user_id := "u1"; title := "a";
         description := None; completed := false |};
     {| task_id := 2; task_user_id := "u2"; title := "b";
         description := None; completed := false |}], [DbSelect]) /\
  task_user_id {| task_id := 1; task_user_id := "u1"; title := "a";
                  description := None; completed := false |} = "u1".
Proof.
  split; [vm_compute; reflexivity|].
  apply (task_responses_owned ["u1"; "u2"] (JStr "u1") "u1" ListTasks
           [{| task_id := 1; task_user_id := "u1"; title := "a";
         description := None; completed := false |};
     {| task_id := 2; task_user_id := "u2"; title := "b";
         description := None; completed := false |}] 3 200
           [{| task_id := 1; task_user_id := "u1"; title := "a";
                  description := None; completed := false |}]
           [{| task_id := 1; task_user_id := "u1"; title := "a";
         description := None; completed := false |};
     {| task_id := 2; task_user_id := "u2"; title := "b";
         description := None; completed := false |}] [DbSelect]).
  - vm_compute. reflexivity.
  - left. reflexivity.
Defined.

(** With task ids unique, no task handler changes, adds or removes a row
    owned by a user other than the one in the path. *)
Theorem task_handlers_keep_other_users_rows (user_ids : list string) (S : jvalue) (U : string)
    (req : TaskRequest) (db : list Task) (next_id : Z) (r : RouteResult)
    (db' : list Task) (ops : list DbOp) :
  List.NoDup (map task_id db) ->
  handle_task_request user_ids S U req db next_id = (r, db', ops) ->
  List.filter (fun t => negb (String.eqb t.(task_user_id) U)) db' =
  List.filter (fun t => negb (String.eqb t.(task_user_id) U)) db.
Proof.
  intros Hnd H. unfold handle_task_request in H.
  destruct (validate_user_access S U) as [[? ?]|]; [injection H as _ <- _; reflexivity|].
  destruct req as [ti d| |tid|tid ti d|tid|tid].
  - destruct (str_in U user_ids); injection H as _ <- _; [|reflexivity].
    rewrite List.filter_app. cbn. rewrite String.eqb_refl, app_nil_r. reflexivity.
  - injection H as _ <- _. reflexivity.
  - destruct (find_task db tid U); injection H as _ <- _; reflexivity.
  - destruct (find_task db tid U) as [t0|] eqn:Hf; injection H as _ <- _; [|reflexivity].
    destruct (find_task_some _ _ _ _ Hf) as (Hin & _ & Hu).
    apply (other_rows_put_task U db t0); auto.
  - destruct (find_task db tid U) as [t0|] eqn:Hf; injection H as _ <- _; [|reflexivity].
    destruct (find_task_some _ _ _ _ Hf) as (Hin & _ & Hu).
    rewrite (filter_bool (fun t' => negb (Z.eqb (task_id t') (task_id t0)))).
    apply other_rows_filter. intros x Hx Hp.
    apply negb_false_iff, Z.eqb_eq in Hp.
    rewrite (task_ids_unique db x t0 Hnd Hx Hin Hp). exact Hu.
  - destruct (find_task db tid U) as [t0|] eqn:Hf; injection H as _ <- _; [|reflexivity].
    destruct (find_task_some _ _ _ _ Hf) as (Hin & _ & Hu).
    apply (other_rows_put_task U db t0); auto.
Qed.

Lemma task_handlers_keep_other_users_rows_witness :
  List.filter (fun t => negb (String.eqb t.(task_user_id) "u1"))
    (filter (fun t => negb (Z.eqb t.(task_id) 1))
       [{| task_id := 1; task_user_id := "u1"; title := "a"; description := None;
           completed := false |};
        {| task_id := 2; task_user_id := "u2"; title := "b"; description := None;
           completed := false |}]) =
  List.filter (fun t => negb (String.eqb t.(task_user_id) "u1"))
    [{| task_id := 1; task_user_id := "u1"; title := "a"; description := None;
        completed := false |};
     {| task_id := 2; task_user_id := "u2"; title := "b"; description := None;
        completed := false |}].
Proof.
  apply (task_handlers_keep_other_users_rows ["u1"; "u2"] (JStr "u1") "u1" (DeleteTask 1) _ 3
           (Respond 204 []) _ [DbSelect; DbDelete; DbCommit]).
  - vm_compute. repeat constructor; cbn; intuition discriminate.
  - vm_compute. reflexivity.
Defined.

(** Task ids stay unique through every handler, given that the id the
    database assigns to a new row is not in use. *)
Theorem task_handlers_keep_ids_unique (user_ids : list string) (S : jvalue) (U : string) (req : TaskRequest)
    (db : list Task) (next_id : Z) (r : RouteResult) (db' : list Task)
    (ops : list DbOp) :
  List.NoDup (map task_id db) -> ~ In next_id (map task_id db) ->
  handle_task_request user_ids S U req db next_id = (r, db', ops) ->
  List.NoDup (map task_id db').
Proof.
  intros Hnd Hfresh H. unfold handle_task_request in H.
  destruct (validate_user_access S U) as [[? ?]|]; [injection H as _ <- _; exact Hnd|].
  destruct req as [ti d| |tid|tid ti d|tid|tid].
  - destruct (str_in U user_ids); injection H as _ <- _; [|exact Hnd].
    rewrite map_app. cbn.
    apply List.NoDup_app; [exact Hnd|repeat constructor; intros []|].
    intros a Ha [<-|[]]. contradiction.
  - injection H as _ <- _. exact Hnd.
  - destruct (find_task db tid U); injection H as _ <- _; exact Hnd.
  - destruct (find_task db tid U); injection H as _ <- _; [|exact Hnd].
    rewrite put_task_ids. exact Hnd.
  - destruct (find_task db tid U) as [t0|]; injection H as _ <- _; [|exact Hnd].
    rewrite (filter_bool (fun t' => negb (Z.eqb (task_id t') (task_id t0)))).
    apply nodup_map_filter. exact Hnd.
  - destruct (find_task db tid U); injection H as _ <- _; [|exact Hnd].
    rewrite put_task_ids. exact Hnd.
Qed.

Lemma task_handlers_keep_ids_unique_witness :
  List.NoDup (map task_id
    ([{| task_id := 1; task_user_id := "u1"; title := "a"; description := None;
         completed := false |}] ++
     [{| task_id := 2; task_user_id := "u1"; title := "b"; description := None;
         completed := false |}])%list).
Proof.
  apply (task_handlers_keep_ids_unique ["u1"; "u2"] (JStr "u1") "u1" (CreateTask "b" None)
           [{| task_id := 1; task_user_id := "u1"; title := "a"; description := None;
               completed := false |}] 2
           (Respond 201 [{| task_id := 2; task_user_id := "u1"; title := "b";
                            description := None; completed := false |}])
           _ [DbAdd; DbCommit]).
  - repeat constructor. intros [].
  - intros [H|[]]. discriminate H.
  - vm_compute. reflexivity.
Defined.



(** Toggling a task's completion twice gives back the original table in
    every modelled column (id, user_id, title, description, completed), and
    the second toggle returns the original task in those columns (task ids
    unique).  The [updated_at] column, rewritten by each toggle, is not
    modelled and is not restored. *)
Theorem toggle_twice_restores (user_ids : list string) (S : jvalue) (U : string) (tid : Z) (db : list Task)
    (next_id next_id' : Z) (t : Task) :
  py_eq_str S U = true -> List.NoDup (map task_id db) ->
  find_task db tid U = Some t ->
  let t1 := with_fields t t.(title) t.(description) (negb t.(completed)) in
  handle_task_request user_ids S U (ToggleTaskComplete tid) db next_id =
    (Respond 200 [t1], put_task db t1, [DbSelect; DbAdd; DbCommit]) /\
  handle_task_request user_ids S U (ToggleTaskComplete tid) (put_task db t1) next_id' =
    (Respond 200 [t], db, [DbSelect; DbAdd; DbCommit]).
Proof.
  intros Hok Hnd Hf. cbv zeta.
  destruct (find_task_some _ _ _ _ Hf) as (Hin & Hid & Hu).
  unfold handle_task_request, validate_user_access. rewrite Hok. cbn [negb].
  rewrite Hf. split; [reflexivity|].
  rewrite find_task_put_task.
  - assert (Ht : with_fields (with_fields t (title t) (description t) (negb (completed t)))
                   (title t) (description t) (negb (negb (completed t))) = t).
    { destruct t. cbn. rewrite negb_involutive. reflexivity. }
    cbn [title description completed with_fields]. cbn [with_fields] in Ht. rewrite Ht.
    rewrite put_task_put_task by (destruct t; reflexivity).
    rewrite put_task_same; [reflexivity|].
    intros x Hx Hxid. exact (task_ids_unique db x t Hnd Hx Hin Hxid).
  - exact Hid.
  - exact Hu.
  - intros x Hx Hxid. rewrite (task_ids_unique db x t Hnd Hx Hin ltac:(congruence)).
    exact Hu.
  - exists t. auto.
Qed.

Lemma toggle_twice_restores_witness :
  handle_task_request ["u1"; "u2"] (JStr "u1") "u1" (ToggleTaskComplete 1)
    [{| task_id := 1; task_user_id := "u1"; title := "a"; description := None;
        completed := true |}] 5 =
  (Respond 200 [{| task_id := 1; task_user_id := "u1"; title := "a"; description := None;
                   completed := false |}],
   [{| task_id := 1; task_user_id := "u1"; title := "a"; description := None;
       completed := false |}], [DbSelect; DbAdd; DbCommit]).
Proof.
  destruct (toggle_twice_restores ["u1"; "u2"] (JStr "u1") "u1" 1
              [{| task_id := 1; task_user_id := "u1"; title := "a"; description := None;
                  completed := false |}] 4 5
              {| task_id := 1; task_user_id := "u1"; title := "a"; description := None;
                 completed := false |}) as [_ H2].
  - reflexivity.
  - repeat constructor. intros [].
  - reflexivity.
  - exact H2.
Defined.

(** After a task is deleted, fetching it answers 404. *)
Theorem deleted_task_not_found (user_ids : list string) (S : jvalue) (U : string) (tid : Z) (db : list Task)
    (next_id next_id' : Z) (db' : list Task) (ops : list DbOp) :
  handle_task_request user_ids S U (DeleteTask tid) db next_id = (Respond 204 [], db', ops) ->
  handle_task_request user_ids S U (GetTask tid) db' next_id' =
    (HttpError 404 "Task not found", db', [DbSelect]).
Proof.
  intros H. unfold handle_task_request in *.
  destruct (validate_user_access S U) as [[? ?]|]; [discriminate|].
  destruct (find_task db tid U) as [t0|] eqn:Hf; [|discriminate].
  injection H as <- _.
  destruct (find_task_some _ _ _ _ Hf) as (_ & Hid & _).
  assert (Hnone : find_task (filter (fun t' => negb (Z.eqb (task_id t') (task_id t0))) db)
                    tid U = None).
  { apply find_task_none_iff. intros x Hx Hxid.
    rewrite (filter_bool (fun t' => negb (Z.eqb (task_id t') (task_id t0)))) in Hx.
    apply filter_In in Hx as [_ Hp]. apply negb_true_iff, Z.eqb_neq in Hp.
    congruence. }
  rewrite Hnone. reflexivity.
Qed.

Lemma deleted_task_not_found_witness :
  handle_task_request ["u1"; "u2"] (JStr "u1") "u1" (GetTask 1)
    (filter (fun t' => negb (Z.eqb (task_id t') 1))
      [{| task_id := 1; task_user_id := "u1"; title := "a"; description := None;
          completed := false |}]) 5 =
  (HttpError 404 "Task not found",
   filter (fun t' => negb (Z.eqb (task_id t') 1))
     [{| task_id := 1; task_user_id := "u1"; title := "a"; description := None;
         completed := false |}], [DbSelect]).
Proof.
  apply (deleted_task_not_found ["u1"; "u2"] (JStr "u1") "u1" 1
           [{| task_id := 1; task_user_id := "u1"; title := "a"; description := None;
               completed := false |}] 4 5 _ [DbSelect; DbDelete; DbCommit]).
  vm_compute. reflexivity.
Defined.

(** On a granted request, a task id that does not exist or belongs to
    another user is answered with 404 "Task not found" (not 403) by the
    get, update, delete and toggle handlers, with nothing but a select. *)
Theorem foreign_task_not_found (user_ids : list string) (S : jvalue) (U : string) (tid : Z) (db : list Task)
    (next_id : Z) :
  py_eq_str S U = true ->
  (forall t, In t db -> t.(task_id) = tid -> t.(task_user_id) <> U) ->
  (forall req, (req = GetTask tid \/ req = DeleteTask tid \/
                req = ToggleTaskComplete tid \/ exists ti d, req = UpdateTask tid ti d) ->
   handle_task_request user_ids S U req db next_id =
     (HttpError 404 "Task not found", db, [DbSelect])).
Proof.
  intros Hok Hnone req Hreq. apply find_task_none_iff in Hnone.
  unfold handle_task_request, validate_user_access. rewrite Hok. cbn [negb].
  destruct Hreq as [->|[->|[->|(ti & d & ->)]]]; rewrite Hnone; reflexivity.
Qed.

Lemma foreign_task_not_found_witness :
  handle_task_request ["u1"; "u2"] (JStr "u1") "u1" (DeleteTask 2)
    [{| task_id := 2; task_user_id := "u2"; title := "b"; description := None;
        completed := false |}] 3 =
  (HttpError 404 "Task not found",
   [{| task_id := 2; task_user_id := "u2"; title := "b"; description := None;
       completed := false |}], [DbSelect]).
Proof.
  apply (foreign_task_not_found ["u1"; "u2"] (JStr "u1") "u1" 2).
  - reflexivity.
  - intros t [<-|[]] _ H. discriminate H.
  - right. left. reflexivity.
Defined.

(* ------------------------------------------------------------------ *)
(** ** Lemmas: [str.strip] *)

Lemma py_lstrip_length (s : string) : (String.length (py_lstrip s) <= String.length s)%nat.
Proof.
  induction s as [|c r IH]; cbn [py_lstrip py_rstrip String.length]; [lia|]. destruct (py_isspace c); cbn [py_lstrip py_rstrip String.length]; lia.
Qed.

Lemma py_rstrip_length (s : string) : (String.length (py_rstrip s) <= String.length s)%nat.
Proof.
  induction s as [|c r IH]; cbn [py_lstrip py_rstrip String.length]; [lia|].
  destruct (py_isspace c && String.eqb (py_rstrip r) ""); cbn [py_lstrip py_rstrip String.length]; lia.
Qed.

Lemma py_lstrip_idem (s : string) : py_lstrip (py_lstrip s) = py_lstrip s.
Proof.
  induction s as [|c r IH]; cbn [py_lstrip py_rstrip String.length]; [reflexivity|].
  destruct (py_isspace c) eqn:Hc; [exact IH|]. cbn [py_lstrip py_rstrip String.length]. rewrite Hc. reflexivity.
Qed.

Lemma py_rstrip_idem (s : string) : py_rstrip (py_rstrip s) = py_rstrip s.
Proof.
  induction s as [|c r IH]; cbn [py_lstrip py_rstrip String.length]; [reflexivity|].
  destruct (py_isspace c && String.eqb (py_rstrip r) "") eqn:Hc; [reflexivity|].
  cbn [py_lstrip py_rstrip String.length]. rewrite IH, Hc. reflexivity.
Qed.

Lemma py_lstrip_fixed_head (c : ascii) (r : string) :
  py_lstrip (String c r) = String c r -> py_isspace c = false.
Proof.
  cbn [py_lstrip py_rstrip String.length]. destruct (py_isspace c); [|reflexivity]. intros H.
  pose proof (py_lstrip_length r) as Hl. rewrite H in Hl. cbn [String.length] in Hl. lia.
Qed.

Lemma py_lstrip_rstrip (s : string) :
  py_lstrip s = s -> py_lstrip (py_rstrip s) = py_rstrip s.
Proof.
  destruct s as [|c r]; [reflexivity|]. intros H.
  apply py_lstrip_fixed_head in H. cbn [py_rstrip]. rewrite H.
  cbn [andb py_lstrip]. rewrite H. reflexivity.
Qed.

Lemma py_strip_idem (s : string) : py_strip (py_strip s) = py_strip s.
Proof.
  unfold py_strip. rewrite py_lstrip_rstrip by apply py_lstrip_idem.
  apply py_rstrip_idem.
Qed.

Lemma py_strip_length (s : string) : (String.length (py_strip s) <= String.length s)%nat.
Proof.
  unfold py_strip. pose proof (py_rstrip_length (py_lstrip s)).
  pose proof (py_lstrip_length s). lia.
Qed.

(** A title accepted by [TaskCreate] is stored stripped and nonempty, and
    validating it again accepts it unchanged. *)
Theorem create_title_validation_idempotent (v t : string) :
  validate_create_title v = Some t ->
  t <> EmptyString /\ py_strip t = t /\ validate_create_title t = Some t.
Proof.
  unfold validate_create_title.
  destruct ((1 <=? String.length v)%nat && (String.length v <=? 200)%nat) eqn:Hlen;
    [|discriminate].
  destruct (String.eqb v "" || String.eqb (py_strip v) "") eqn:Hemp; [discriminate|].
  intros H. injection H as <-.
  apply orb_false_iff in Hemp as [_ Hs]. apply String.eqb_neq in Hs.
  apply andb_true_iff in Hlen as [_ Hle]. apply Nat.leb_le in Hle.
  pose proof (py_strip_length v) as Hl.
  rewrite py_strip_idem.
  assert (Hpos : (1 <= String.length (py_strip v))%nat).
  { destruct (py_strip v); [contradiction|cbn; lia]. }
  repeat split; [exact Hs|].
  replace ((1 <=? String.length (py_strip v))%nat && (String.length (py_strip v) <=? 200)%nat)
    with true by (symmetry; apply andb_true_iff; split; apply Nat.leb_le; lia).
  apply String.eqb_neq in Hs. rewrite Hs. reflexivity.
Qed.

Lemma create_title_validation_idempotent_witness :
  "a" <> EmptyString /\ py_strip "a" = "a" /\ validate_create_title "a" = Some "a".
Proof.
  apply (create_title_validation_idempotent "  a  " "a"). reflexivity.
Defined.

(** Through [PUT], an empty description is turned into [None] by the
    validator, and [update_task] then leaves the description (and, with no
    title, the whole task and the table) unchanged; a nonempty
    whitespace-only description is stored as the empty string. *)
Theorem update_description_edge (user_ids : list string) (S : jvalue) (U : string) (tid : Z) (db : list Task)
    (next_id : Z) (t : Task) :
  py_eq_str S U = true -> List.NoDup (map task_id db) ->
  find_task db tid U = Some t ->
  update_task_route user_ids S U tid None (Some "") db next_id =
    (Respond 200 [t], db, [DbSelect; DbAdd; DbCommit]) /\
  (forall d, d <> EmptyString -> (String.length d <= 1000)%nat -> py_strip d = EmptyString ->
   update_task_route user_ids S U tid None (Some d) db next_id =
     (Respond 200 [with_fields t t.(title) (Some EmptyString) t.(completed)],
      put_task db (with_fields t t.(title) (Some EmptyString) t.(completed)),
      [DbSelect; DbAdd; DbCommit])).
Proof.
  intros Hok Hnd Hf.
  destruct (find_task_some _ _ _ _ Hf) as (Hin & _ & _).
  unfold update_task_route, handle_task_request, validate_user_access. rewrite Hok.
  cbn [negb validate_update_title]. split.
  - cbn. rewrite Hf.
    assert (Ht : with_fields t (title t) (description t) (completed t) = t)
      by (destruct t; reflexivity).
    rewrite Ht, put_task_same; [reflexivity|].
    intros x Hx Hxid. exact (task_ids_unique db x t Hnd Hx Hin Hxid).
  - intros d Hd Hlen Hs. unfold validate_description.
    apply Nat.leb_le in Hlen. rewrite Hlen.
    apply String.eqb_neq in Hd. rewrite Hd, Hs, Hf. reflexivity.
Qed.

Lemma update_description_edge_witness :
  update_task_route ["u1"; "u2"] (JStr "u1") "u1" 1 None (Some " ")
    [{| task_id := 1; task_user_id := "u1"; title := "a"; description := Some "x";
        completed := true |}] 2 =
  (Respond 200 [{| task_id := 1; task_user_id := "u1"; title := "a";
                   description := Some ""; completed := true |}],
   [{| task_id := 1; task_user_id := "u1"; title := "a"; description := Some "";
       completed := true |}], [DbSelect; DbAdd; DbCommit]).
Proof.
  destruct (update_description_edge ["u1"; "u2"] (JStr "u1") "u1" 1
              [{| task_id := 1; task_user_id := "u1"; title := "a";
                  description := Some "x"; completed := true |}] 2
              {| task_id := 1; task_user_id := "u1"; title := "a";
                 description := Some "x"; completed := true |}) as [_ H].
  - reflexivity.
  - repeat constructor. intros [].
  - reflexivity.
  - apply (H " "); [discriminate | cbn; lia | reflexivity].
Defined.

(* ------------------------------------------------------------------ *)
(** ** Lemmas: the user table *)

Lemma find_by_email_snoc (users : list User) (u : User) (e : string) :
  find_by_email users e = None -> u.(email) = e ->
  find_by_email (users ++ [u])%list e = Some u.
Proof.
  unfold find_by_email. intros Hn He. induction users as [|x users IH]; cbn in *.
  - rewrite He, String.eqb_refl. reflexivity.
  - destruct (String.eqb (email x) e); [discriminate|]. exact (IH Hn).
Qed.

Lemma nodup_snoc {A} (l : list A) (x : A) :
  List.NoDup l -> ~ In x l -> List.NoDup (l ++ [x])%list.
Proof.
  induction l as [|y l IH]; cbn; intros Hnd Hx.
  - repeat constructor. intros [].
  - apply NoDup_cons_iff in Hnd as [Hy Hnd]. constructor.
    + rewrite in_app_iff. intros [H|[H|[]]]; [contradiction|]. apply Hx. left. congruence.
    + apply IH; [exact Hnd|]. intros H. apply Hx. right. exact H.
Qed.

Lemma find_by_email_none_map (users : list User) (e : string) :
  find_by_email users e = None -> ~ In e (map email users).
Proof.
  unfold find_by_email. intros Hn Hin. apply in_map_iff in Hin as (x & Hx & Hxin).
  pose proof (find_none _ _ Hn x Hxin) as H. cbn in H.
  rewrite Hx, String.eqb_refl in H. discriminate.
Qed.

(** A digest checks against the password it was made from when it
    carries the salt it was made with. *)
Lemma checkpw_own_digest (bcrypt_core : string -> string -> Z -> string -> option string)
    (password salt h : string) :
  bcrypt_hashpw bcrypt_core password salt = Ok h ->
  bcrypt_parse_salt h = bcrypt_parse_salt salt ->
  bcrypt_checkpw bcrypt_core password h = Ok true.
Proof.
  unfold bcrypt_checkpw. intros Hh Hp. unfold bcrypt_hashpw at 1. rewrite Hp.
  unfold bcrypt_hashpw in Hh.
  destruct (bcrypt_parse_salt salt) as [[[v c] s]|]; [|discriminate].
  destruct (bcrypt_core password v c s); [|discriminate].
  injection Hh as <-. cbn. rewrite String.eqb_refl. reflexivity.
Qed.

Lemma generate_jwt_token_key_ok (C : Codecs) (jwt_secret : string) (user : User)
    (utcnow : Z) (local_offset : Z -> Z) :
  hmac_prepare_key C (Some jwt_secret) = Ok jwt_secret ->
  exists token,
    generate_jwt_token C jwt_secret user utcnow local_offset = Ok (token, utcnow + TOKEN_TTL).
Proof.
  intros Hk. unfold generate_jwt_token, jwt_encode. rewrite Hk. cbn. eexists. reflexivity.
Qed.

(** A successful signup appends exactly one user, with the given email and
    id and the bcrypt digest of the password, which a lookup by that email
    then finds; emails that were unique stay unique. *)
Theorem signup_adds_one_user (bcrypt_core : string -> string -> Z -> string -> option string)
    (users : list User) (e password : string) (n : option string)
    (salt new_id : string) (utcnow : Z) (u : User) (users' : list User)
    (effects : list Effect) :
  signup bcrypt_core users e password n salt new_id utcnow = (Ok u, users', effects) ->
  users' = (users ++ [u])%list /\ u.(email) = e /\ u.(id) = new_id /\
  bcrypt_hashpw bcrypt_core password salt = Ok u.(password_hash) /\
  find_by_email users' e = Some u /\
  (List.NoDup (map email users) -> List.NoDup (map email users')).
Proof.
  unfold signup. destruct (find_by_email users e) eqn:Hf; [discriminate|].
  destruct (bcrypt_hashpw bcrypt_core password salt) as [h|ex] eqn:Hh; [|discriminate].
  intros H. injection H as <- <- _. cbn.
  split; [reflexivity|]. split; [reflexivity|]. split; [reflexivity|].
  split; [reflexivity|]. split.
  - apply find_by_email_snoc; [exact Hf | reflexivity].
  - intros Hnd. rewrite map_app. apply nodup_snoc; [exact Hnd|].
    exact (find_by_email_none_map users e Hf).
Qed.

Lemma signup_adds_one_user_witness :
  find_by_email [toy_user; {| id := "u2"; email := "b@example.com";
          password_hash := "$2b$12$abcdefghijklmnopqrstuvpw"; name := None;
          created_at := 0; updated_at := 0 |}] "b@example.com" =
  Some {| id := "u2"; email := "b@example.com";
          password_hash := "$2b$12$abcdefghijklmnopqrstuvpw"; name := None;
          created_at := 0; updated_at := 0 |}.
Proof.
  destruct (signup_adds_one_user toy_bcrypt_core [toy_user] "b@example.com" "pw" None
              "$2b$12$abcdefghijklmnopqrstuv" "u2" 0
              {| id := "u2"; email := "b@example.com";
                 password_hash := "$2b$12$abcdefghijklmnopqrstuvpw"; name := None;
                 created_at := 0; updated_at := 0 |} _ _ eq_refl)
    as (_ & _ & _ & _ & Hfind & _).
  cbn in Hfind. cbn. exact Hfind.
Defined.

(** After a successful signup, logging in with the same email and password
    succeeds for the new user (bcrypt keeps the salt in the digest), and
    the issued token verifies exactly inside its window. *)
Theorem signup_then_login (bcrypt_core : string -> string -> Z -> string -> option string)
    (C : Codecs) (jwt_secret : string) (users : list User) (e password : string)
    (n : option string) (salt new_id : string) (t0 : Z) (u : User) (users' : list User)
    (effects : list Effect) (utcnow : Z) (local_offset : Z -> Z) (now : Z) :
  codecs_lawful C ->
  hmac_prepare_key C (Some jwt_secret) = Ok jwt_secret ->
  signup bcrypt_core users e password n salt new_id t0 = (Ok u, users', effects) ->
  bcrypt_parse_salt u.(password_hash) = bcrypt_parse_salt salt ->
  exists token,
    login bcrypt_core C jwt_secret users' e password utcnow local_offset =
      Ok (u, token, utcnow + TOKEN_TTL) /\
    verify_jwt_token C jwt_secret token now =
      let iat := naive_timestamp local_offset utcnow in
      let exp := naive_timestamp local_offset (utcnow + TOKEN_TTL) in
      if Z.ltb now iat then Err InvalidTokenError
      else if Z.leb exp now then Err ExpiredSignatureError
      else Ok (jwt_payload u iat exp).
Proof.
  intros Hlaw Hk Hs Hp.
  destruct (signup_adds_one_user _ _ _ _ _ _ _ _ _ _ _ Hs) as (-> & _ & _ & Hh & Hf & _).
  destruct (generate_jwt_token_key_ok C jwt_secret u utcnow local_offset Hk) as [token Hg].
  exists token. split.
  - unfold login. rewrite Hf, (checkpw_own_digest _ _ _ _ Hh Hp). cbn. rewrite Hg.
    reflexivity.
  - exact (verify_issued_in_window C jwt_secret u utcnow local_offset now token _ Hlaw Hg).
Qed.

Lemma signup_then_login_witness :
  exists token,
    login toy_bcrypt_core toy_codecs "secret"
      [toy_user; {| id := "u2"; email := "b@example.com";
                    password_hash := "$2b$12$abcdefghijklmnopqrstuvpw"; name := None;
                    created_at := 0; updated_at := 0 |}]
      "b@example.com" "pw" 100 (fun _ => 0) =
      Ok ({| id := "u2"; email := "b@example.com";
             password_hash := "$2b$12$abcdefghijklmnopqrstuvpw"; name := None;
             created_at := 0; updated_at := 0 |}, token, 100 + TOKEN_TTL) /\
    verify_jwt_token toy_codecs "secret" token 200 =
      let iat := naive_timestamp (fun _ => 0) 100 in
      let exp := naive_timestamp (fun _ => 0) (100 + TOKEN_TTL) in
      if Z.ltb 200 iat then Err InvalidTokenError
      else if Z.leb exp 200 then Err ExpiredSignatureError
      else Ok (jwt_payload {| id := "u2"; email := "b@example.com";
                              password_hash := "$2b$12$abcdefghijklmnopqrstuvpw";
                              name := None; created_at := 0; updated_at := 0 |} iat exp).
Proof.
  apply (signup_then_login toy_bcrypt_core toy_codecs "secret" [toy_user] "b@example.com"
           "pw" None "$2b$12$abcdefghijklmnopqrstuv" "u2" 0 _ _
           [QueryUserByEmail "b@example.com"; HashPassword;
            InsertUser {| id := "u2"; email := "b@example.com";
                          password_hash := "$2b$12$abcdefghijklmnopqrstuvpw"; name := None;
                          created_at := 0; updated_at := 0 |}; Commit] 100 (fun _ => 0) 200).
  - exact toy_codecs_lawful.
  - vm_compute. reflexivity.
  - vm_compute. reflexivity.
  - vm_compute. reflexivity.
Defined.

(* ------------------------------------------------------------------ *)
(** ** Lemmas: the middleware's token handling *)

Lemma str_split_no_sep (c : ascii) (s : string) :
  str_has c s = false -> str_split c s = [s].
Proof.
  induction s as [|x r IH]; cbn [str_has str_split]; [reflexivity|].
  intros H. apply orb_false_iff in H as [Hx Hr]. rewrite Hx, (IH Hr). reflexivity.
Qed.

Lemma bearer_split_word (t : string) :
  nth_error (str_split " " ("Bearer " ++ t)) 1 = Some (hd EmptyString (str_split " " t)).
Proof.
  cbn. destruct (str_split " " t) as [|w rest] eqn:E; [|reflexivity].
  exfalso. exact (str_split_nonempty _ _ E).
Qed.

Lemma dispatch_bearer_word (C : Codecs) (secret : option string) (now : Z)
    (request : Request) (t : string) :
  bypassed request = false ->
  request.(authorization) = Some ("Bearer " ++ t) ->
  dispatch C secret now request =
  match dispatch_try C secret (hd EmptyString (str_split " " t)) now with
  | inl (user_id, em) => CallNext (authenticated request user_id em)
  | inr r => let (st, detail) := dispatch_except r in HttpRaise st detail
  end.
Proof.
  intros Hb Ha. apply (dispatch_bearer C secret now request ("Bearer " ++ t)).
  - exact Hb.
  - exact Ha.
  - cbn. destruct t; reflexivity.
  - apply bearer_split_word.
Qed.

(** Without a key, PyJWT's signature check raises before any payload is
    returned. *)
Lemma jwt_decode_no_key (C : Codecs) (token : string) (now : Z) (payload : dict) :
  jwt_decode C token None now <> Ok payload.
Proof.
  unfold jwt_decode, jws_decode, jws_verify_signature, hmac_prepare_key.
  destruct (jws_load C token) as [[[[p si] h] s]|e]; cbn; [|discriminate].
  destruct (py_get h "b64") as [| [] | | |]; cbn; try discriminate;
    destruct (py_eq_str (py_get h "alg") "HS256"); discriminate.
Qed.

(** With [BETTER_AUTH_SECRET] unset, the middleware lets no protected
    request through: every request it does not bypass is answered 401. *)
Theorem missing_secret_rejects_all (C : Codecs) (now : Z) (request : Request) :
  bypassed request = false ->
  exists detail, dispatch C None now request = HttpRaise 401 detail.
Proof.
  intros Hb.
  assert (Hraise : forall r, exists detail,
             (let (st, d) := dispatch_except r in HttpRaise st d) = HttpRaise 401 detail).
  { intros r. pose proof (dispatch_except_401 r) as H401.
    destruct (dispatch_except r) as [st d]. cbn in H401. subst. eauto. }
  pose proof Hb as Hb'. unfold bypassed in Hb'.
  apply orb_false_iff in Hb' as [Hb' Hhd]. apply orb_false_iff in Hb' as [Hopt Hpub].
  destruct (authorization request) as [h|] eqn:Hauth.
  2:{ unfold dispatch. rewrite Hopt, Hpub, Hhd, Hauth. eauto. }
  destruct (String.prefix "Bearer " h) eqn:Hpre.
  2:{ unfold dispatch. rewrite Hopt, Hpub, Hhd, Hauth, Hpre.
      destruct (String.eqb h ""); eauto. }
  destruct (bearer_split_index h Hpre) as [token Htok].
  rewrite (dispatch_bearer C None now request h token Hb Hauth Hpre Htok).
  unfold dispatch_try.
  destruct (jwt_decode C token None now) as [payload|e] eqn:Hdec; [|apply Hraise].
  exfalso. exact (jwt_decode_no_key C token now payload Hdec).
Qed.

Lemma missing_secret_rejects_all_witness :
  exists detail,
    dispatch toy_codecs None 2000
      {| method := "GET"; path := "/api/u1/tasks";
         authorization := Some ("Bearer " ++ toy_token);
         state := {| st_user_id := None; st_email := None |} |} = HttpRaise 401 detail.
Proof.
  apply missing_secret_rejects_all. reflexivity.
Defined.

(** The middleware decodes the text after ["Bearer "] up to the first
    space ([auth_header.split(" ")[1]]): the whole rest when it has no
    space, and only its first word otherwise. *)
Theorem dispatch_decodes_first_word (C : Codecs) (secret : option string) (now : Z)
    (request : Request) (t : string) :
  bypassed request = false ->
  request.(authorization) = Some ("Bearer " ++ t) ->
  dispatch C secret now request =
  match dispatch_try C secret (hd EmptyString (str_split " " t)) now with
  | inl (user_id, em) => CallNext (authenticated request user_id em)
  | inr r => let (st, detail) := dispatch_except r in HttpRaise st detail
  end /\
  (str_has " " t = false -> hd EmptyString (str_split " " t) = t).
Proof.
  intros Hb Ha. split.
  - exact (dispatch_bearer_word C secret now request t Hb Ha).
  - intros Hs. rewrite (str_split_no_sep _ _ Hs). reflexivity.
Qed.

Lemma dispatch_decodes_first_word_witness :
  dispatch toy_codecs (Some "secret-key") 2000
    {| method := "GET"; path := "/api/u1/tasks";
       authorization := Some ("Bearer " ++ toy_token ++ " trailing");
       state := {| st_user_id := None; st_email := None |} |} =
  match dispatch_try toy_codecs (Some "secret-key") toy_token 2000 with
  | inl (user_id, em) =>
      CallNext (authenticated
                  {| method := "GET"; path := "/api/u1/tasks";
                     authorization := Some ("Bearer " ++ toy_token ++ " trailing");
                     state := {| st_user_id := None; st_email := None |} |} user_id em)
  | inr r => let (st, detail) := dispatch_except r in HttpRaise st detail
  end.
Proof.
  destruct (dispatch_decodes_first_word toy_codecs (Some "secret-key") 2000
              {| method := "GET"; path := "/api/u1/tasks";
                 authorization := Some ("Bearer " ++ toy_token ++ " trailing");
                 state := {| st_user_id := None; st_email := None |} |}
              (toy_token ++ " trailing") eq_refl eq_refl) as [H _].
  rewrite H. f_equal.
Defined.

(** A correctly signed token whose [iat] is null makes PyJWT's [int(None)]
    raise [TypeError], which [verify_jwt_token] lets through unmapped (it
    is not a [jwt.InvalidTokenError]) and the middleware turns into 401
    "Authentication failed". *)
Theorem null_iat_raises_type_error (C : Codecs) (secret token : string) (now : Z)
    (b : Bytes C) (payload : dict) :
  jws_decode C token (Some secret) = Ok b ->
  json_loads C b = Some payload ->
  dict_get payload "iat" = Some JNull ->
  verify_jwt_token C secret token now = Err TypeError /\
  (forall request, bypassed request = false ->
     request.(authorization) = Some ("Bearer " ++ token) -> str_has " " token = false ->
     dispatch C (Some secret) now request = HttpRaise 401 "Authentication failed").
Proof.
  intros Hj Hl Hiat.
  assert (Hdec : jwt_decode C token (Some secret) now = Err TypeError).
  { unfold jwt_decode. rewrite Hj. cbn [bind]. rewrite Hl.
    unfold validate_claims, validate_iat, py_in, py_get. rewrite Hiat. reflexivity. }
  split.
  - unfold verify_jwt_token. rewrite Hdec. reflexivity.
  - intros request Hb Ha Hs.
    rewrite (dispatch_bearer_word C (Some secret) now request token Hb Ha).
    rewrite (str_split_no_sep _ _ Hs). cbn [hd]. unfold dispatch_try. rewrite Hdec.
    reflexivity.
Qed.

Lemma null_iat_raises_type_error_witness :
  verify_jwt_token toy_codecs "secret-key" toy_null_iat_token 2000 = Err TypeError /\
  dispatch toy_codecs (Some "secret-key") 2000
    {| method := "GET"; path := "/api/u1/tasks";
       authorization := Some ("Bearer " ++ toy_null_iat_token);
       state := {| st_user_id := None; st_email := None |} |} =
  HttpRaise 401 "Authentication failed".
Proof.
  destruct (null_iat_raises_type_error toy_codecs "secret-key" toy_null_iat_token 2000
              (json_dumps toy_codecs [("iat", JNull); ("sub", JStr "u1")])
              [("iat", JNull); ("sub", JStr "u1")]) as [H1 H2].
  - vm_compute. reflexivity.
  - vm_compute. reflexivity.
  - reflexivity.
  - split; [exact H1|]. apply H2; [reflexivity | reflexivity | vm_compute; reflexivity].
Defined.

(* ------------------------------------------------------------------ *)
(** ** Lemmas: the verify route *)

Lemma get_user_by_id_unique (users : list User) (u : User) :
  List.NoDup (map id users) -> In u users -> get_user_by_id users u.(id) = Some u.
Proof.
  unfold get_user_by_id. induction users as [|x users IH]; intros Hnd Hin; [destruct Hin|].
  cbn in Hnd. apply NoDup_cons_iff in Hnd as [Hnin Hnd]. cbn.
  destruct (String.eqb_spec (id x) (id u)) as [E|E].
  - destruct Hin as [<-|Hin]; [reflexivity|].
    exfalso. apply Hnin. rewrite E. apply in_map. exact Hin.
  - destruct Hin as [<-|Hin]; [contradiction|]. exact (IH Hnd Hin).
Qed.

Lemma verify_ok_decode (C : Codecs) (secret token : string) (now : Z) (payload : dict) :
  verify_jwt_token C secret token now = Ok payload ->
  jwt_decode C token (Some secret) now = Ok payload.
Proof.
  unfold verify_jwt_token.
  destruct (jwt_decode C token (Some secret) now) as [q|e]; [exact (fun H => H)|].
  destruct e; cbn; discriminate.
Qed.

Lemma issued_token_no_space (C : Codecs) (secret : string) (user : User)
    (utcnow : Z) (local_offset : Z -> Z) (token : string) (expires_at : Z) :
  codecs_lawful C ->
  generate_jwt_token C secret user utcnow local_offset = Ok (token, expires_at) ->
  str_has " " token = false.
Proof.
  intros (_ & _ & _ & Hsp & _) Hg.
  destruct (generate_jwt_token_ok _ _ _ _ _ _ _ Hg) as [_ He].
  destruct (jwt_encode_ok _ _ _ _ He) as [_ ->].
  rewrite !str_has_app. cbn [str_has String.append]. rewrite ?str_has_app, !Hsp.
  reflexivity.
Qed.

(** An issued token, inside its window, passes the middleware with the
    user's id and email put on [request.state]. *)
Lemma dispatch_issued_token (C : Codecs) (secret : string) (u : User)
    (utcnow : Z) (local_offset : Z -> Z) (now : Z) (token : string) (expires_at : Z) (request : Request) :
  codecs_lawful C -> u.(id) <> EmptyString ->
  generate_jwt_token C secret u utcnow local_offset = Ok (token, expires_at) ->
  naive_timestamp local_offset utcnow <= now < naive_timestamp local_offset (utcnow + TOKEN_TTL) ->
  bypassed request = false ->
  request.(authorization) = Some ("Bearer " ++ token) ->
  dispatch C (Some secret) now request =
    CallNext (authenticated request (JStr u.(id)) (JStr u.(email))).
Proof.
  intros Hlaw Hid Hg Hwin Hb Ha.
  pose proof (verify_issued_in_window C secret u utcnow local_offset now token _ Hlaw Hg)
    as Hv.
  cbv zeta in Hv.
  rewrite (proj2 (Z.ltb_ge _ _)), (proj2 (Z.leb_gt _ _)) in Hv by lia.
  apply verify_ok_decode in Hv.
  rewrite (dispatch_bearer_word C (Some secret) now request token Hb Ha).
  rewrite (str_split_no_sep _ _ (issued_token_no_space C secret u _ _ _ _ Hlaw Hg)).
  cbn [hd]. unfold dispatch_try. rewrite Hv.
  apply String.eqb_neq in Hid.
  assert (Hget : forall a b, py_get (jwt_payload u a b) "user_id" = JStr u.(id) /\
                             py_get (jwt_payload u a b) "email" = JStr u.(email))
    by (intros; split; reflexivity).
  rewrite !(proj1 (Hget _ _)), !(proj2 (Hget _ _)).
  unfold py_or, truthy. rewrite Hid. cbn [negb]. rewrite Hid. reflexivity.
Qed.

(** A token the service issued to a stored user, sent as [Bearer <token>]
    to [GET /api/auth/verify] inside its validity window, passes the
    middleware and makes the route return that user (without its password
    hash) and an empty [expires_at]; user ids are unique and nonempty. *)
Theorem issued_token_passes_verify_route (lookup_non_string : jvalue -> result (option User))
    (C : Codecs) (secret : string) (users : list User) (u : User)
    (utcnow : Z) (local_offset : Z -> Z) (now : Z) (token : string) (expires_at : Z) (request : Request) :
  codecs_lawful C ->
  In u users -> List.NoDup (map id users) -> u.(id) <> EmptyString ->
  generate_jwt_token C secret u utcnow local_offset = Ok (token, expires_at) ->
  naive_timestamp local_offset utcnow <= now < naive_timestamp local_offset (utcnow + TOKEN_TTL) ->
  request.(method) = "GET" -> request.(path) = "/api/auth/verify" ->
  request.(authorization) = Some ("Bearer " ++ token) ->
  exists r, dispatch C (Some secret) now request = CallNext r /\
    verify_route lookup_non_string users r = VerifyOk (user_response u) "".
Proof.
  intros Hlaw Hin Hnd Hid Hg Hwin Hm Hp Ha.
  assert (Hb : bypassed request = false) by (unfold bypassed; rewrite Hm, Hp; reflexivity).
  rewrite (dispatch_issued_token C secret u utcnow local_offset now token expires_at request
             Hlaw Hid Hg Hwin Hb Ha).
  eexists. split; [reflexivity|].
  apply String.eqb_neq in Hid.
  unfold verify_route, authenticated, truthy. cbn [state st_user_id]. rewrite Hid.
  cbn [negb]. rewrite (get_user_by_id_unique users u Hnd Hin). reflexivity.
Qed.

Lemma issued_token_passes_verify_route_witness :
  exists r,
    dispatch toy_codecs (Some "secret-key") 2000
      {| method := "GET"; path := "/api/auth/verify";
         authorization := Some ("Bearer " ++ toy_token);
         state := {| st_user_id := None; st_email := None |} |} = CallNext r /\
    verify_route (fun _ => Ok None) [toy_user] r = VerifyOk (user_response toy_user) "".
Proof.
  apply (issued_token_passes_verify_route (fun _ => Ok None) toy_codecs "secret-key"
           [toy_user] toy_user 1000 (fun _ => 0) 2000 toy_token 605800).
  - exact toy_codecs_lawful.
  - left. reflexivity.
  - repeat constructor. intros [].
  - discriminate.
  - vm_compute. reflexivity.
  - unfold naive_timestamp, TOKEN_TTL. lia.
  - reflexivity.
  - reflexivity.
  - reflexivity.
Defined.

(** Listing returns exactly the caller's rows: every task of the table
    owned by [user_id], and nothing else, without changing the table. *)
Theorem list_tasks_exactly_own (user_ids : list string) (S : jvalue) (U : string) (db : list Task) (next_id : Z) :
  py_eq_str S U = true ->
  exists ts,
    handle_task_request user_ids S U ListTasks db next_id = (Respond 200 ts, db, [DbSelect]) /\
    (forall t, In t ts <-> In t db /\ t.(task_user_id) = U).
Proof.
  intros Hok. unfold handle_task_request, validate_user_access. rewrite Hok. cbn [negb].
  eexists. split; [reflexivity|]. intros t.
  rewrite (filter_bool (fun t => String.eqb (task_user_id t) U)), filter_In.
  rewrite String.eqb_eq. reflexivity.
Qed.

Lemma list_tasks_exactly_own_witness :
  exists ts,
    handle_task_request ["u1"; "u2"] (JStr "u1") "u1" ListTasks
      [{| task_id := 1; task_user_id := "u1"; title := "a"; description := None;
          completed := false |};
       {| task_id := 2; task_user_id := "u2"; title := "b"; description := None;
          completed := false |}] 3 =
    (Respond 200 ts,
     [{| task_id := 1; task_user_id := "u1"; title := "a"; description := None;
         completed := false |};
      {| task_id := 2; task_user_id := "u2"; title := "b"; description := None;
         completed := false |}], [DbSelect]) /\
    (forall t, In t ts <->
       In t [{| task_id := 1; task_user_id := "u1"; title := "a"; description := None;
                completed := false |};
             {| task_id := 2; task_user_id := "u2"; title := "b"; description := None;
                completed := false |}] /\ t.(task_user_id) = "u1").
Proof.
  apply list_tasks_exactly_own. reflexivity.
Defined.

(** A title that is empty or whitespace only is refused with 422 before
    the handler runs: whoever asks, the table is left as it was and no
    database operation is issued. *)
Theorem blank_title_rejected (user_ids : list string) (S : jvalue) (U ti : string) (d : option string)
    (db : list Task) (next_id : Z) :
  py_strip ti = EmptyString ->
  create_task_route user_ids S U ti d db next_id = (HttpError 422 "Unprocessable Entity", db, []).
Proof.
  intros Hs. unfold create_task_route, validate_create_title. rewrite Hs.
  rewrite orb_true_r. destruct (_ && _); reflexivity.
Qed.

Lemma blank_title_rejected_witness :
  create_task_route ["u1"; "u2"] (JStr "u1") "u1" (String "009" "  ") None [] 1 =
    (HttpError 422 "Unprocessable Entity", [], []).
Proof.
  apply blank_title_rejected. vm_compute. reflexivity.
Defined.

(** When the configured secret is one PyJWT refuses as an HMAC key (it
    looks like a PEM or SSH key), a login with correct credentials fails
    with [InvalidKeyError], which the route answers with 500. *)
Theorem login_rejected_secret_500 (bcrypt_core : string -> string -> Z -> string -> option string)
    (C : Codecs) (jwt_secret : string) (users : list User) (e password : string)
    (utcnow : Z) (local_offset : Z -> Z) (u : User) :
  find_by_email users e = Some u ->
  bcrypt_checkpw bcrypt_core password u.(password_hash) = Ok true ->
  is_pem_format C jwt_secret || is_ssh_key jwt_secret = true ->
  login bcrypt_core C jwt_secret users e password utcnow local_offset = Err InvalidKeyError /\
  fst (login_route_response
         (login bcrypt_core C jwt_secret users e password utcnow local_offset)) = 500.
Proof.
  intros Hf Hc Hk.
  assert (H : login bcrypt_core C jwt_secret users e password utcnow local_offset =
              Err InvalidKeyError).
  { unfold login. rewrite Hf, Hc. cbn [bind].
    unfold generate_jwt_token, jwt_encode, hmac_prepare_key. rewrite Hk. reflexivity. }
  rewrite H. split; reflexivity.
Qed.

Lemma login_rejected_secret_500_witness :
  login toy_bcrypt_core toy_codecs "-----BEGIN KEY" [toy_user] "a@example.com"
    "wxyz0123456789ABCDEFGHIJKLMNOPQ" 1000 (fun _ => 0) = Err InvalidKeyError.
Proof.
  apply (login_rejected_secret_500 toy_bcrypt_core toy_codecs "-----BEGIN KEY" [toy_user]
           "a@example.com" "wxyz0123456789ABCDEFGHIJKLMNOPQ" 1000 (fun _ => 0) toy_user).
  - reflexivity.
  - vm_compute. reflexivity.
  - vm_compute. reflexivity.
Defined.

(** A still-valid token of a user who is no longer in the table passes the
    middleware, and [GET /api/auth/verify] then answers 401 "User not found". *)
Theorem removed_user_token_not_found (lookup_non_string : jvalue -> result (option User))
    (C : Codecs) (secret : string) (users : list User) (u : User)
    (utcnow : Z) (local_offset : Z -> Z) (now : Z) (token : string) (expires_at : Z) (request : Request) :
  codecs_lawful C ->
  ~ In u.(id) (map id users) -> u.(id) <> EmptyString ->
  generate_jwt_token C secret u utcnow local_offset = Ok (token, expires_at) ->
  naive_timestamp local_offset utcnow <= now < naive_timestamp local_offset (utcnow + TOKEN_TTL) ->
  request.(method) = "GET" -> request.(path) = "/api/auth/verify" ->
  request.(authorization) = Some ("Bearer " ++ token) ->
  exists r, dispatch C (Some secret) now request = CallNext r /\
    verify_route lookup_non_string users r = VerifyHttpError 401 "User not found".
Proof.
  intros Hlaw Hout Hid Hg Hwin Hm Hp Ha.
  assert (Hb : bypassed request = false) by (unfold bypassed; rewrite Hm, Hp; reflexivity).
  rewrite (dispatch_issued_token C secret u utcnow local_offset now token expires_at request
             Hlaw Hid Hg Hwin Hb Ha).
  eexists. split; [reflexivity|].
  assert (Hnone : get_user_by_id users u.(id) = None).
  { unfold get_user_by_id.
    destruct (find (fun x => String.eqb (id x) (id u)) users) as [x|] eqn:E;
      [|reflexivity].
    apply find_some in E as [Hx Heq]. apply String.eqb_eq in Heq.
    exfalso. apply Hout. rewrite <- Heq. apply in_map. exact Hx. }
  apply String.eqb_neq in Hid.
  unfold verify_route, authenticated, truthy. cbn [state st_user_id]. rewrite Hid.
  cbn [negb]. rewrite Hnone. reflexivity.
Qed.

Lemma removed_user_token_not_found_witness :
  exists r,
    dispatch toy_codecs (Some "secret-key") 2000
      {| method := "GET"; path := "/api/auth/verify";
         authorization := Some ("Bearer " ++ toy_token);
         state := {| st_user_id := None; st_email := None |} |} = CallNext r /\
    verify_route (fun _ => Ok None) [] r = VerifyHttpError 401 "User not found".
Proof.
  apply (removed_user_token_not_found (fun _ => Ok None) toy_codecs "secret-key"
           [] toy_user 1000 (fun _ => 0) 2000 toy_token 605800).
  - exact toy_codecs_lawful.
  - intros [].
  - discriminate.
  - vm_compute. reflexivity.
  - unfold naive_timestamp, TOKEN_TTL. lia.
  - reflexivity.
  - reflexivity.
  - reflexivity.
Defined.
